(** * app-exposer: the VICE analysis controller, embedded and verified

    A shallow embedding of the parts of [incluster/volumes.go],
    [incluster/services.go] and the job-status publisher that the
    specification talks about, followed by the theorems that relate
    the specification's sentences to the code.

    Layout: Part I holds every definition (the Go library functions the
    code calls, the data model, the functions of the repository, a small
    concrete world); Part II holds the lemmas and theorems; Part III
    evaluates the code and instantiates the theorems in the concrete
    world. *)

From Stdlib Require Import Ascii String ZArith.
From stdpp Require Import gmap strings list fin_maps pretty.

Local Open Scope string_scope.
Local Open Scope list_scope.

(** * Part I: definitions *)

(** ** Go values: errors and results *)

(** A Go [error] value.  [nil] is represented by [None] in [option error].
    [ErrNoRows] is the sentinel [sql.ErrNoRows], compared with [==] in the
    handlers; [Errorf] is an error built by [fmt.Errorf] (or returned by an
    external service) carrying its message; [Wrapped] is what
    [errors.Wrapf] builds around a non-nil cause; [HTTPError] is
    [echo.NewHTTPError code message]. *)
Inductive error : Type :=
  | ErrNoRows
  | Errorf (msg : string)
  | Wrapped (msg : string) (cause : error)
  | HTTPError (code : Z) (message : string).

(** Comparing two errors with [==]. *)
#[global] Instance error_eq_dec : EqDecision error.
Proof. solve_decision. Defined.

(** A Go pair [(value, error)] of which exactly one side is meaningful. *)
Inductive result (A : Type) : Type :=
  | Ok (a : A)
  | Err (e : error).
Arguments Ok {A} a.
Arguments Err {A} e.

(** ** Go standard library functions used by the code *)

Module fmt.

(** Arguments of a formatting call: the code only formats strings
    ([%s]) and integers ([%d]). *)
Inductive Arg : Type :=
  | S (s : string)
  | D (n : Z).

Definition verb (c : ascii) (a : Arg) : string :=
  match a with
  | S s =>
      if bool_decide (c = "s"%char) then s
      else "%!" +:+ String c "(string=" +:+ s +:+ ")"
  | D n =>
      if bool_decide (c = "d"%char) then pretty n
      else "%!" +:+ String c "(int=" +:+ pretty n +:+ ")"
  end.

(** [fmt.Sprintf] restricted to the verbs [%s] and [%d] (the only ones at
    the call sites embedded here); a verb with no argument left prints
    Go's [%!v(MISSING)] marker. *)
Fixpoint Sprintf (format : string) (args : list Arg) : string :=
  match format with
  | EmptyString => EmptyString
  | String c rest =>
      if bool_decide (c = "%"%char) then
        match rest with
        | String v rest' =>
            match args with
            | a :: args' => verb v a +:+ Sprintf rest' args'
            | [] => "%!" +:+ String v "(MISSING)" +:+ Sprintf rest' []
            end
        | EmptyString => "%!(NOVERB)"
        end
      else String c (Sprintf rest args)
  end.

End fmt.

Module strings.

Definition lower (c : ascii) : ascii :=
  let n := N_of_ascii c in
  if ((65 <=? n) && (n <=? 90))%N then ascii_of_N (n + 32) else c.

(** [strings.ToLower] on the ASCII range; bytes from 0x80 up, which Go
    maps through the Unicode tables, are left as they are. *)
Fixpoint ToLower (s : string) : string :=
  match s with
  | EmptyString => EmptyString
  | String c rest => String (lower c) (ToLower rest)
  end.

(** [strings.HasSuffix s suffix]. *)
Definition HasSuffix (s suffix : string) : bool :=
  String.prefix (String.rev suffix) (String.rev s).

End strings.

Module filepath.

Definition isPathSeparator (c : ascii) : bool := bool_decide (c = "/"%char).

(** The loop [for len(path) > 0 && IsPathSeparator(path[len(path)-1])]. *)
Fixpoint stripTrailingSeparators (path : string) : string :=
  match path with
  | EmptyString => EmptyString
  | String c rest =>
      match stripTrailingSeparators rest with
      | EmptyString => if isPathSeparator c then EmptyString else String c EmptyString
      | rest' => String c rest'
      end
  end.

(** The part of [path] after its last separator (all of it when there
    is none): [elem] is what has been read since the last separator. *)
Fixpoint lastElement (elem path : string) : string :=
  match path with
  | EmptyString => elem
  | String c rest =>
      if isPathSeparator c then lastElement EmptyString rest
      else lastElement (elem +:+ String c EmptyString) rest
  end.

(** [filepath.Base] on a system whose separator is [/] and that has no
    volume names. *)
Definition Base (path : string) : string :=
  if bool_decide (path = EmptyString) then "."
  else
    let elem := lastElement EmptyString (stripTrailingSeparators path) in
    if bool_decide (elem = EmptyString) then "/" else elem.

End filepath.

Module errors.

(** [errors.Wrapf] of github.com/pkg/errors: "If err is nil, Wrapf
    returns nil"; otherwise the cause is annotated with the message. *)
Definition Wrapf (err : option error) (msg : string) : option error :=
  match err with
  | None => None
  | Some cause => Some (Wrapped msg cause)
  end.

End errors.

(** ** The job model (github.com/cyverse-de/model/v7)

    Only what the embedded code reads is kept.  [IRODSPath] stands for
    the value of the method [StepInput.IRODSPath()], the remote path of
    the input, and [OutputDirectory] for the value of the method
    [Job.OutputDirectory()]. *)

Module model.

Record StepInput : Type := {
  InputType : string;   (* the field [Type] *)
  IRODSPath : string
}.

Record Container : Type := { UID : Z; GID : Z }.
Record StepComponent : Type := { Container_ : Container }.
Record StepConfig : Type := { Inputs : list StepInput }.
Record Step : Type := { Component : StepComponent; Config : StepConfig }.

Record Job : Type := {
  InvocationID : string;
  Submitter : string;
  UserHome : string;
  OutputDirectory : string;
  Steps : list Step
}.

End model.

(** ** Kubernetes API types (k8s.io/api, k8s.io/apimachinery) *)

Module intstr.

Inductive Kind : Type := Int | String_.

Record IntOrString : Type := {
  Type_ : Kind;
  IntVal : Z;
  StrVal : string
}.

Definition FromString (val : string) : IntOrString :=
  {| Type_ := String_; IntVal := 0; StrVal := val |}.

(** [IntOrString.String]. *)
Definition String (v : IntOrString) : string :=
  match Type_ v with
  | String_ => StrVal v
  | Int => pretty (IntVal v)
  end.

End intstr.

(** Label selectors (k8s.io/apimachinery/pkg/labels).  A selector is kept
    as its list of requirements; [ListOptions.LabelSelector] carries that
    list instead of its [String()] rendering, which the API server parses
    back into the same requirements. *)
Module labels.

Inductive Operator : Type := Equals | DoesNotExist.

Record Requirement : Type := {
  key : string;
  operator : Operator;
  strValues : list string
}.

Definition Selector : Type := list Requirement.

(** [Set.AsSelector]: one equality requirement per label of the set
    (sorted by key in Go; the order plays no role in what a selector
    matches). *)
Definition AsSelector (set : gmap string string) : Selector :=
  (λ kv, {| key := kv.1; operator := Equals; strValues := [kv.2] |})
    <$> map_to_list set.

(** [Selector.Add]. *)
Definition Add (s : Selector) (reqs : list Requirement) : Selector := s ++ reqs.

(** What the API server does with one requirement
    ([Requirement.Matches]). *)
Definition Matches (r : Requirement) (ls : gmap string string) : bool :=
  match operator r with
  | Equals =>
      match ls !! key r with
      | Some v => bool_decide (v ∈ strValues r)
      | None => false
      end
  | DoesNotExist => bool_decide (ls !! key r = None)
  end.

(** [Selector.Matches]: every requirement holds. *)
Definition SelectorMatches (s : Selector) (ls : gmap string string) : bool :=
  forallb (λ r, Matches r ls) s.

End labels.

Module metav1.

(** [CreationTimestamp] holds the rendering [GetCreationTimestamp().String()]. *)
Record ObjectMeta : Type := {
  Name : string;
  Namespace : string;
  Labels : gmap string string;
  CreationTimestamp : string
}.

Definition SetLabels (o : ObjectMeta) (l : gmap string string) : ObjectMeta :=
  {| Name := Name o; Namespace := Namespace o; Labels := l;
     CreationTimestamp := CreationTimestamp o |}.

Record ListOptions : Type := { LabelSelector : labels.Selector }.

End metav1.

(** k8s.io/api/core/v1 (imported as [apiv1] and as [corev1]).  Each struct
    lives in a module of its own, so that fields keep their Go names. *)
Module corev1.

Inductive Protocol : Type := ProtocolTCP | ProtocolUDP | ProtocolSCTP.

Definition ProtocolString (p : Protocol) : string :=
  match p with ProtocolTCP => "TCP" | ProtocolUDP => "UDP" | ProtocolSCTP => "SCTP" end.

Module ServicePort.
Record t : Type := {
  Name : string;
  Protocol_ : Protocol;
  Port : Z;
  NodePort : Z;
  TargetPort : intstr.IntOrString
}.
End ServicePort.

Module ServiceSpec.
Record t : Type := {
  Selector : gmap string string;
  Ports : list ServicePort.t
}.
End ServiceSpec.

Module Service.
Record t : Type := { ObjectMeta : metav1.ObjectMeta; Spec : ServiceSpec.t }.
End Service.

Module SecurityContext.
Record t : Type := { RunAsUser : option Z; RunAsGroup : option Z }.
End SecurityContext.

Module Container.
(** [Ports] keeps the [ContainerPort] number of each declared port. *)
Record t : Type := {
  Name : string;
  Image : string;
  Command : list string;
  Ports : list Z;
  SecurityContext_ : option SecurityContext.t
}.
End Container.

(** Container statuses are passed through untouched. *)
Inductive ContainerStatus : Type := MkContainerStatus (raw : string).

Module PodStatus.
Record t : Type := {
  Phase : string;
  Message : string;
  Reason : string;
  ContainerStatuses : list ContainerStatus;
  InitContainerStatuses : list ContainerStatus
}.
End PodStatus.

Module Pod.
Record t : Type := { ObjectMeta : metav1.ObjectMeta; Status : PodStatus.t }.
End Pod.

Module ConfigMap.
Record t : Type := { ObjectMeta : metav1.ObjectMeta; Data : gmap string string }.
End ConfigMap.

Inductive PersistentVolumeMode : Type :=
  PersistentVolumeBlock | PersistentVolumeFilesystem.
Inductive PersistentVolumeAccessMode : Type :=
  ReadWriteOnce | ReadOnlyMany | ReadWriteMany.
Inductive PersistentVolumeReclaimPolicy : Type :=
    PersistentVolumeReclaimRecycle | PersistentVolumeReclaimDelete
  | PersistentVolumeReclaimRetain.

Module CSIPersistentVolumeSource.
Record t : Type := {
  Driver : string;
  VolumeHandle : string;
  VolumeAttributes : gmap string string
}.
End CSIPersistentVolumeSource.

Module PersistentVolumeSpec.
(** [Capacity] maps a resource name ([ResourceStorage] is ["storage"])
    to the text of its quantity; [CSI] is the only volume source the
    code fills in. *)
Record t : Type := {
  Capacity : gmap string string;
  VolumeMode : option PersistentVolumeMode;
  AccessModes : list PersistentVolumeAccessMode;
  PersistentVolumeReclaimPolicy_ : PersistentVolumeReclaimPolicy;
  StorageClassName : string;
  CSI : option CSIPersistentVolumeSource.t
}.
End PersistentVolumeSpec.

Module PersistentVolume.
Record t : Type := { ObjectMeta : metav1.ObjectMeta; Spec : PersistentVolumeSpec.t }.
End PersistentVolume.

Module PersistentVolumeClaimSpec.
(** [Requests] is [Resources.Requests], a resource name to the text of
    its quantity; [StorageClassName] is a pointer in Go. *)
Record t : Type := {
  AccessModes : list PersistentVolumeAccessMode;
  StorageClassName : option string;
  VolumeName : string;
  Requests : gmap string string
}.
End PersistentVolumeClaimSpec.

Module PersistentVolumeClaim.
Record t : Type := { ObjectMeta : metav1.ObjectMeta; Spec : PersistentVolumeClaimSpec.t }.
End PersistentVolumeClaim.

Module PersistentVolumeClaimVolumeSource.
Record t : Type := { ClaimName : string }.
End PersistentVolumeClaimVolumeSource.

Module Volume.
(** [PersistentVolumeClaim] is [VolumeSource.PersistentVolumeClaim], the
    only volume source the code fills in. *)
Record t : Type := {
  Name : string;
  PersistentVolumeClaim : option PersistentVolumeClaimVolumeSource.t
}.
End Volume.

Module VolumeMount.
Record t : Type := { Name : string; MountPath : string }.
End VolumeMount.

Definition ResourceStorage : string := "storage".

End corev1.

(** k8s.io/api/apps/v1 (imported as [v1]); [Containers] is
    [Spec.Template.Spec.Containers]. *)
Module appsv1.
Module Deployment.
Record t : Type := {
  ObjectMeta : metav1.ObjectMeta;
  Containers : list corev1.Container.t
}.
End Deployment.
End appsv1.

(** k8s.io/api/networking/v1. *)
Module netv1.

(** Ingress rules are passed through untouched. *)
Inductive IngressRule : Type := MkIngressRule (raw : string).

Module IngressServiceBackend.
(** [PortNumber] is [Port.Number]. *)
Record t : Type := { Name : string; PortNumber : Z }.
End IngressServiceBackend.

Module IngressBackend.
Record t : Type := { Service : option IngressServiceBackend.t }.
End IngressBackend.

Module Ingress.
(** [Rules] is [Spec.Rules], [DefaultBackend] is [Spec.DefaultBackend]. *)
Record t : Type := {
  ObjectMeta : metav1.ObjectMeta;
  Rules : list IngressRule;
  DefaultBackend : option IngressBackend.t
}.
End Ingress.

End netv1.

(** ** Effects

    A computation that talks to the Apps service, the Permissions service
    or the cluster yields the calls it made, in order, and either a value
    or nothing when the Go code panics (an index out of range, a nil
    dereference). *)

Inductive ObjectKind : Type :=
  KDeployment | KPod | KConfigMap | KService | KIngress.

Inductive Object : Type :=
  | ODeployment (d : appsv1.Deployment.t)
  | OConfigMap (c : corev1.ConfigMap.t)
  | OService (s : corev1.Service.t)
  | OIngress (i : netv1.Ingress.t).

Inductive Event : Type :=
  | AppsGetUserID (username : string)
  | AppsGetAnalysisIDByExternalID (externalID : string)
  | AppsGetUserIP (userID : string)
  | PermissionsIsAllowed (baseURL user analysisID : string)
  | ClusterList (kind : ObjectKind) (namespace : string) (opts : metav1.ListOptions)
  | ClusterUpdate (namespace : string) (obj : Object).

Definition M (A : Type) : Type := (list Event * option A)%type.

Definition ret {A : Type} (a : A) : M A := ([], Some a).

Definition bind {A B : Type} (m : M A) (k : A → M B) : M B :=
  match m with
  | (t, None) => (t, None)
  | (t, Some a) => let '(t', b) := k a in (t ++ t', b)
  end.

(** A call to a collaborator: the call is recorded and its answer returned. *)
Definition call {A : Type} (e : Event) (answer : A) : M A := ([e], Some answer).

Definition trace {A : Type} (m : M A) : list Event := m.1.
Definition value {A : Type} (m : M A) : option A := m.2.

Notation "x <- m ;; k" := (bind m (λ x, k))
  (at level 100, m at next level, right associativity, only parsing).

(** A loop [for _, x := range xs] whose body may call collaborators and
    threads an accumulator. *)
Fixpoint forRange {A S : Type} (xs : list A) (body : S → A → M S) (s : S) : M S :=
  match xs with
  | [] => ret s
  | x :: xs' => s' <- body s x ;; forRange xs' body s'
  end.

(** ** Collaborators *)

Module apps.
(** What the Apps service answers. *)
Record Apps : Type := {
  GetUserID : string → result string;
  GetAnalysisIDByExternalID : string → result string;
  GetUserIP : string → result string
}.
End apps.

Module kubernetes.
(** What the cluster answers to [List] and [Update] of each kind, given
    the namespace. *)
Record Interface : Type := {
  DeploymentsList : string → metav1.ListOptions → result (list appsv1.Deployment.t);
  DeploymentsUpdate : string → appsv1.Deployment.t → option error;
  PodsList : string → metav1.ListOptions → result (list corev1.Pod.t);
  ConfigMapsList : string → metav1.ListOptions → result (list corev1.ConfigMap.t);
  ConfigMapsUpdate : string → corev1.ConfigMap.t → option error;
  ServicesList : string → metav1.ListOptions → result (list corev1.Service.t);
  ServicesUpdate : string → corev1.Service.t → option error;
  IngressesList : string → metav1.ListOptions → result (list netv1.Ingress.t);
  IngressesUpdate : string → netv1.Ingress.t → option error
}.
End kubernetes.

(** The receiver of the embedded methods. *)
Record Incluster : Type := {
  UseCSIDriver : bool;
  IRODSZone : string;
  ViceNamespace : string;
  UserSuffix : string;
  PermissionsURL : string;
  apps_ : apps.Apps;
  clientset : kubernetes.Interface
}.

(** The path mapping handed to the iRODS CSI driver. *)
Record IRODSFSPathMapping : Type := {
  IRODSPath : string;
  MappingPath : string;
  ResourceType : string;
  ReadOnly : bool;
  CreateDir : bool;
  IgnoreNotExistError : bool
}.

(** The constants of the package [constants] that the embedded code reads
    and whose values play no role in the specification. *)
Class Constants : Type := {
  CSIDriverName : string;
  CSIDriverStorageClassName : string;
  CSIDriverDataVolumeNamePrefix : string;
  CSIDriverDataVolumeClaimNamePrefix : string;
  CSIDriverInputVolumeMountPath : string;
  CSIDriverOutputVolumeMountPath : string;
  CSIDriverLocalMountPath : string;
  FileTransfersPort : Z;
  VICEProxyServicePort : Z
}.

(** Functions the embedded code calls and whose code is elsewhere: the
    JSON encoder, the key validation of [labels.NewRequirement], and, from
    this repository, [Incluster.LabelsFromJob], [IngressName] and
    [permissions.Permissions.IsAllowed] (given the base URL). *)
Class Env : Type := {
  json_Marshal : list IRODSFSPathMapping → result string;
  validateLabelKey : string → bool;
  LabelsFromJob : Incluster → model.Job → result (gmap string string);
  IngressName : string → string → string;
  IsAllowed : string → string → string → result bool
}.

(** Modelled from the spec: the constant [FileTransfersPortName] of the
    package [constants], which is not part of the embedded files; the
    specification names the first service port [file-transfers]. *)
Definition FileTransfersPortName : string := "file-transfers".

(** Modelled from the spec: the constant [VICEProxyPortName] of the
    package [constants], which is not part of the embedded files; the
    specification names the second service port [vice-proxy]. *)
Definition VICEProxyPortName : string := "vice-proxy".

(** Modelled from the spec: [common.FixUsername], which is not part of the
    embedded files; the configured suffix is appended to usernames that
    lack it. *)
Definition FixUsername (username userSuffix : string) : string :=
  if strings.HasSuffix username userSuffix then username
  else username +:+ userSuffix.

(** A loop [for _, x := range xs] whose body may [return nil, err]: the
    first error ends the loop. *)
Fixpoint rangeResult {A S : Type} (xs : list A) (body : S → A → result S) (s : S)
    : result S :=
  match xs with
  | [] => Ok s
  | x :: xs' =>
      match body s x with
      | Err e => Err e
      | Ok s' => rangeResult xs' body s'
      end
  end.

(** ** incluster/volumes.go *)

Section volumes.
Context `{Constants} `{Env}.

Definition defaultStorageCapacity : string := "5Gi".

Definition getZoneMountPath (i : Incluster) : string :=
  fmt.Sprintf "%s/%s" [fmt.S CSIDriverLocalMountPath; fmt.S (IRODSZone i)].

Definition getCSIDataVolumeHandle (i : Incluster) (job : model.Job) : string :=
  fmt.Sprintf "%s-handle-%s"
    [fmt.S CSIDriverDataVolumeNamePrefix; fmt.S (model.InvocationID job)].

Definition getCSIDataVolumeName (i : Incluster) (job : model.Job) : string :=
  fmt.Sprintf "%s-%s"
    [fmt.S CSIDriverDataVolumeNamePrefix; fmt.S (model.InvocationID job)].

Definition getCSIDataVolumeClaimName (i : Incluster) (job : model.Job) : string :=
  fmt.Sprintf "%s-%s"
    [fmt.S CSIDriverDataVolumeClaimNamePrefix; fmt.S (model.InvocationID job)].

(** The state of the walk over the inputs: [mappingMap] (mount path to
    iRODS path) and [mappings]. *)
Definition walkState : Type := (gmap string string * list IRODSFSPathMapping)%type.

(** The body of the inner loop of [getInputPathMappings]. *)
Definition walkInput (st : walkState) (stepInput : model.StepInput) : result walkState :=
  let '(mappingMap, mappings) := st in
  let irodsPath := model.IRODSPath stepInput in
  if bool_decide (0 < String.length irodsPath)%nat then
    let resourceType : result string :=
      if bool_decide (strings.ToLower (model.InputType stepInput) = "fileinput")
      then Ok "file"
      else if bool_decide (strings.ToLower (model.InputType stepInput) = "multifileselector")
      then Ok "file"
      else if bool_decide (strings.ToLower (model.InputType stepInput) = "folderinput")
      then Ok "dir"
      else Err (Errorf (fmt.Sprintf "unknown step input type - %s"
                          [fmt.S (model.InputType stepInput)])) in
    match resourceType with
    | Err e => Err e
    | Ok resourceType =>
        let mountPath :=
          fmt.Sprintf "%s/%s"
            [fmt.S CSIDriverInputVolumeMountPath; fmt.S (filepath.Base irodsPath)] in
        match mappingMap !! mountPath with
        | Some existingIRODSPath =>
            Err (Errorf (fmt.Sprintf
                   "tried to mount an input file %s at %s already used by - %s"
                   [fmt.S irodsPath; fmt.S mountPath; fmt.S existingIRODSPath]))
        | None =>
            let mapping :=
              {| IRODSPath := irodsPath;
                 MappingPath := mountPath;
                 ResourceType := resourceType;
                 ReadOnly := true;
                 CreateDir := false;
                 IgnoreNotExistError := true |} in
            Ok (<[mountPath := irodsPath]> mappingMap, mappings ++ [mapping])
        end
    end
  else Ok st.

Definition walkStep (st : walkState) (step : model.Step) : result walkState :=
  rangeResult (model.Inputs (model.Config step)) walkInput st.

Definition getInputPathMappings (i : Incluster) (job : model.Job)
    : result (list IRODSFSPathMapping) :=
  match rangeResult (model.Steps job) walkStep (∅, []) with
  | Err e => Err e
  | Ok (_, mappings) => Ok mappings
  end.

Definition getOutputPathMapping (i : Incluster) (job : model.Job) : IRODSFSPathMapping :=
  {| IRODSPath := model.OutputDirectory job;
     MappingPath := CSIDriverOutputVolumeMountPath;
     ResourceType := "dir";
     ReadOnly := false;
     CreateDir := true;
     IgnoreNotExistError := true |}.

Definition getHomePathMapping (i : Incluster) (job : model.Job) : IRODSFSPathMapping :=
  {| IRODSPath := model.UserHome job;
     MappingPath := model.UserHome job;
     ResourceType := "dir";
     ReadOnly := false;
     CreateDir := false;
     IgnoreNotExistError := false |}.

Definition getSharedPathMapping (i : Incluster) : IRODSFSPathMapping :=
  let sharedHomeFullPath := fmt.Sprintf "/%s/home/shared" [fmt.S (IRODSZone i)] in
  {| IRODSPath := sharedHomeFullPath;
     MappingPath := sharedHomeFullPath;
     ResourceType := "dir";
     ReadOnly := false;
     CreateDir := false;
     IgnoreNotExistError := true |}.

Definition getCSIDataVolumeLabels (i : Incluster) (job : model.Job)
    : result (gmap string string) :=
  match LabelsFromJob i job with
  | Err err => Err err
  | Ok labels => Ok (<["volume-name" := getCSIDataVolumeName i job]> labels)
  end.

(** The path mappings of the data volume, in the order the code appends
    them. *)
Definition dataPathMappings (i : Incluster) (job : model.Job)
    (inputPathMappings : list IRODSFSPathMapping) : list IRODSFSPathMapping :=
  let dataPathMappings := [] ++ inputPathMappings in
  let dataPathMappings := dataPathMappings ++ [getOutputPathMapping i job] in
  let dataPathMappings :=
    if bool_decide (model.UserHome job ≠ "")
    then dataPathMappings ++ [getHomePathMapping i job]
    else dataPathMappings in
  dataPathMappings ++ [getSharedPathMapping i].

(** [getPersistentVolumes]; [None] is the panic of [job.Steps[0]] on a
    job without steps, which the code reaches after the three fallible
    calls. *)
Definition getPersistentVolumes (i : Incluster) (job : model.Job)
    : option (result (list corev1.PersistentVolume.t)) :=
  if UseCSIDriver i then
    match getInputPathMappings i job with
    | Err err => Some (Err err)
    | Ok inputPathMappings =>
        match json_Marshal (dataPathMappings i job inputPathMappings) with
        | Err err => Some (Err err)
        | Ok dataPathMappingsJSONBytes =>
            match getCSIDataVolumeLabels i job with
            | Err err => Some (Err err)
            | Ok dataVolumeLabels =>
                step0 ← model.Steps job !! 0%nat;
                let dataVolume :=
                  {| corev1.PersistentVolume.ObjectMeta :=
                       {| metav1.Name := getCSIDataVolumeName i job;
                          metav1.Namespace := "";
                          metav1.Labels := dataVolumeLabels;
                          metav1.CreationTimestamp := "" |};
                     corev1.PersistentVolume.Spec :=
                       {| corev1.PersistentVolumeSpec.Capacity :=
                            {[ corev1.ResourceStorage := defaultStorageCapacity ]};
                          corev1.PersistentVolumeSpec.VolumeMode :=
                            Some corev1.PersistentVolumeFilesystem;
                          corev1.PersistentVolumeSpec.AccessModes :=
                            [corev1.ReadWriteMany];
                          corev1.PersistentVolumeSpec.PersistentVolumeReclaimPolicy_ :=
                            corev1.PersistentVolumeReclaimRetain;
                          corev1.PersistentVolumeSpec.StorageClassName :=
                            CSIDriverStorageClassName;
                          corev1.PersistentVolumeSpec.CSI :=
                            Some
                              {| corev1.CSIPersistentVolumeSource.Driver := CSIDriverName;
                                 corev1.CSIPersistentVolumeSource.VolumeHandle :=
                                   getCSIDataVolumeHandle i job;
                                 corev1.CSIPersistentVolumeSource.VolumeAttributes :=
                                   <["gid" := fmt.Sprintf "%d"
                                       [fmt.D (model.UID (model.Container_ (model.Component step0)))]]>
                                   (<["uid" := fmt.Sprintf "%d"
                                       [fmt.D (model.UID (model.Container_ (model.Component step0)))]]>
                                   (<["clientUser" := model.Submitter job]>
                                   (<["no_permission_check" := "true"]>
                                   (<["path_mapping_json" := dataPathMappingsJSONBytes]>
                                   (<["client" := "irodsfuse"]> ∅))))) |} |} |} in
                Some (Ok ([] ++ [dataVolume]))
            end
        end
    end
  else Some (Ok []).

Definition getPersistentVolumeClaims (i : Incluster) (job : model.Job)
    : result (list corev1.PersistentVolumeClaim.t) :=
  if UseCSIDriver i then
    match LabelsFromJob i job with
    | Err err => Err err
    | Ok labels =>
        let storageclassname := CSIDriverStorageClassName in
        let dataVolumeClaim :=
          {| corev1.PersistentVolumeClaim.ObjectMeta :=
               {| metav1.Name := getCSIDataVolumeClaimName i job;
                  metav1.Namespace := "";
                  metav1.Labels := labels;
                  metav1.CreationTimestamp := "" |};
             corev1.PersistentVolumeClaim.Spec :=
               {| corev1.PersistentVolumeClaimSpec.AccessModes := [corev1.ReadWriteMany];
                  corev1.PersistentVolumeClaimSpec.StorageClassName := Some storageclassname;
                  corev1.PersistentVolumeClaimSpec.VolumeName := getCSIDataVolumeName i job;
                  corev1.PersistentVolumeClaimSpec.Requests :=
                    {[ corev1.ResourceStorage := defaultStorageCapacity ]} |} |} in
        Ok ([] ++ [dataVolumeClaim])
    end
  else Ok [].

Definition getPersistentVolumeSources (i : Incluster) (job : model.Job)
    : result (list corev1.Volume.t) :=
  if UseCSIDriver i then
    let dataVolume :=
      {| corev1.Volume.Name := getCSIDataVolumeClaimName i job;
         corev1.Volume.PersistentVolumeClaim :=
           Some {| corev1.PersistentVolumeClaimVolumeSource.ClaimName :=
                     getCSIDataVolumeClaimName i job |} |} in
    Ok ([] ++ [dataVolume])
  else Ok [].

Definition getPersistentVolumeMounts (i : Incluster) (job : model.Job)
    : list corev1.VolumeMount.t :=
  if UseCSIDriver i then
    let dataVolumeMount :=
      {| corev1.VolumeMount.Name := getCSIDataVolumeClaimName i job;
         corev1.VolumeMount.MountPath := CSIDriverLocalMountPath |} in
    [] ++ [dataVolumeMount]
  else [].

End volumes.

(** ** The job-status publisher (JSLPublisher) *)

Module publisher.

(** [messaging.JobState] is a string type. *)
Definition JobState : Type := string.

Record JSLPublisher : Type := { statusURL : string }.

Record AnalysisStatus : Type := {
  Hostname : string;
  State : JobState;
  Message : string
}.

Record Request : Type := {
  Method : string;
  RequestURL : string;
  RequestBody : string;
  Header : gmap string string
}.

(** [BodyText] is what [%s] prints for [response.Body]. *)
Record Response : Type := {
  StatusCode : Z;
  BodyText : string
}.

(** The library and the network, as [postStatus] sees them: the three
    job states of the package [messaging], the host name ([hostname()]
    has already replaced a failure by the empty string), [url.Parse]
    followed by the assignment to [u.Path] and [u.String()],
    [path.Join], [json.Marshal], [http.NewRequestWithContext] and
    [httpClient.Do]. *)
Class Net : Type := {
  FailedState : JobState;
  SucceededState : JobState;
  RunningState : JobState;
  hostname : string;
  URL : Type;
  url_Parse : string → result URL;
  withPath : URL → string → URL;
  URLString : URL → string;
  path_Join : list string → string;
  status_Marshal : AnalysisStatus → result string;
  NewRequestWithContext : string → string → string → result Request;
  httpClient_Do : Request → result Response
}.

(** The [err] of a Go pair [(value, err)]. *)
Definition errOf {A : Type} (r : result A) : option error :=
  match r with
  | Ok _ => None
  | Err e => Some e
  end.

Definition HeaderSet (req : Request) (k v : string) : Request :=
  {| Method := Method req; RequestURL := RequestURL req;
     RequestBody := RequestBody req; Header := <[k := v]> (Header req) |}.

(** What [%s] prints for the receiver [j], a pointer to a struct. *)
Definition JSLPublisherText (j : JSLPublisher) : string :=
  "&{" +:+ statusURL j +:+ "}".

Section postStatus.
Context `{Net}.

(** [postStatus] returns a Go [error]: [None] is [nil].  The variable
    [err] is the one Go variable the four calls assign in turn. *)
Definition postStatus (j : JSLPublisher) (jobID msg : string) (jobState : JobState)
    : option error :=
  let status := {| Hostname := hostname; State := jobState; Message := msg |} in
  let r := url_Parse (statusURL j) in
  let err := errOf r in
  match r with
  | Err _ =>
      errors.Wrapf err
        (fmt.Sprintf "error parsing URL %s for job %s before posting %s status"
           [fmt.S (JSLPublisherText j); fmt.S jobID; fmt.S jobState])
  | Ok u =>
      let u := withPath u (path_Join [jobID; "status"]) in
      let r := status_Marshal status in
      let err := errOf r in
      match r with
      | Err _ =>
          errors.Wrapf err
            (fmt.Sprintf "error marshalling JSON for analysis %s before posting %s status"
               [fmt.S jobID; fmt.S jobState])
      | Ok js =>
          let r := NewRequestWithContext "POST" (URLString u) js in
          let err := errOf r in
          match r with
          | Err _ =>
              errors.Wrapf err
                (fmt.Sprintf "error returned posting %s status for job %s to %s"
                   [fmt.S jobState; fmt.S jobID; fmt.S (URLString u)])
          | Ok req =>
              let req := HeaderSet req "content-type" "application/json" in
              let r := httpClient_Do req in
              let err := errOf r in
              match r with
              | Err _ =>
                  errors.Wrapf err
                    (fmt.Sprintf "error returned posting %s status for job %s to %s"
                       [fmt.S jobState; fmt.S jobID; fmt.S (URLString u)])
              | Ok response =>
                  if ((StatusCode response <? 200) || (StatusCode response >? 399))%Z
                  then
                    errors.Wrapf err
                      (fmt.Sprintf
                         "error status code %d returned after posting %s status for job %s to %s: %s"
                         [fmt.D (StatusCode response); fmt.S jobState; fmt.S jobID;
                          fmt.S (URLString u); fmt.S (BodyText response)])
                  else None
              end
          end
      end
  end.

Definition Fail (j : JSLPublisher) (jobID msg : string) : option error :=
  postStatus j jobID msg FailedState.

Definition Success (j : JSLPublisher) (jobID msg : string) : option error :=
  postStatus j jobID msg SucceededState.

Definition Running (j : JSLPublisher) (jobID msg : string) : option error :=
  postStatus j jobID msg RunningState.

End postStatus.

End publisher.

(** ** incluster/services.go: the projections returned by the listings *)

Record MetaInfo : Type := {
  MetaName : string;
  MetaNamespace : string;
  AnalysisName : string;
  AppName : string;
  AppID : string;
  ExternalID : string;
  UserID : string;
  Username : string;
  MetaCreationTimestamp : string
}.

Record DeploymentInfo : Type := {
  DeploymentMeta : MetaInfo;
  Image : string;
  Command : list string;
  Port : Z;
  User : Z;
  Group : Z
}.

Record PodInfo : Type := {
  PodMeta : MetaInfo;
  Phase : string;
  Message : string;
  Reason : string;
  ContainerStatuses : list corev1.ContainerStatus;
  InitContainerStatuses : list corev1.ContainerStatus
}.

Record ConfigMapInfo : Type := {
  ConfigMapMeta : MetaInfo;
  Data : gmap string string
}.

Record ServiceInfoPort : Type := {
  PortName : string;
  NodePort : Z;
  TargetPort : Z;
  TargetPortName : string;
  ServicePortNumber : Z;
  Protocol : string
}.

Record ServiceInfo : Type := {
  ServiceMeta : MetaInfo;
  Ports : list ServiceInfoPort
}.

Record IngressInfo : Type := {
  IngressMeta : MetaInfo;
  DefaultBackend : string;
  Rules : list netv1.IngressRule
}.

Record ResourceInfo : Type := {
  Deployments : list DeploymentInfo;
  Pods : list PodInfo;
  ConfigMaps : list ConfigMapInfo;
  Services : list ServiceInfo;
  Ingresses : list IngressInfo
}.

(** Reading a Go [map[string]string] at a key: the zero value when the key
    is absent. *)
Definition index (m : gmap string string) (k : string) : string := default "" (m !! k).

(** The [MetaInfo] literal that each of the five projections builds from
    the object's metadata. *)
Definition metaInfo (o : metav1.ObjectMeta) : MetaInfo :=
  let labels := metav1.Labels o in
  {| MetaName := metav1.Name o;
     MetaNamespace := metav1.Namespace o;
     AnalysisName := index labels "analysis-name";
     AppName := index labels "app-name";
     AppID := index labels "app-id";
     ExternalID := index labels "external-id";
     UserID := index labels "user-id";
     Username := index labels "username";
     MetaCreationTimestamp := metav1.CreationTimestamp o |}.

(** The local variables of [deploymentInfo] that its loop assigns. *)
Record analysisVars : Type := {
  user : Z; group : Z; image : string; port : Z; command : list string
}.

(** The body of the loop of [deploymentInfo]; [None] is the panic of
    [container.Ports[0]] without ports or of a nil [SecurityContext],
    [RunAsUser] or [RunAsGroup]. *)
Definition analysisContainer (vars : analysisVars) (container : corev1.Container.t)
    : option analysisVars :=
  if bool_decide (corev1.Container.Name container = "analysis") then
    port0 ← corev1.Container.Ports container !! 0%nat;
    securityContext ← corev1.Container.SecurityContext_ container;
    runAsUser ← corev1.SecurityContext.RunAsUser securityContext;
    runAsGroup ← corev1.SecurityContext.RunAsGroup securityContext;
    Some {| image := corev1.Container.Image container;
            command := corev1.Container.Command container;
            port := port0;
            user := runAsUser;
            group := runAsGroup |}
  else Some vars.

Fixpoint rangeContainers (containers : list corev1.Container.t) (vars : analysisVars)
    : option analysisVars :=
  match containers with
  | [] => Some vars
  | container :: rest =>
      vars' ← analysisContainer vars container; rangeContainers rest vars'
  end.

Definition deploymentInfo (deployment : appsv1.Deployment.t) : option DeploymentInfo :=
  vars ← rangeContainers (appsv1.Deployment.Containers deployment)
            {| user := 0; group := 0; image := ""; port := 0; command := [] |};
  Some {| DeploymentMeta := metaInfo (appsv1.Deployment.ObjectMeta deployment);
          Image := image vars;
          Command := command vars;
          Port := port vars;
          User := user vars;
          Group := group vars |}.

Definition podInfo (pod : corev1.Pod.t) : PodInfo :=
  {| PodMeta := metaInfo (corev1.Pod.ObjectMeta pod);
     Phase := corev1.PodStatus.Phase (corev1.Pod.Status pod);
     Message := corev1.PodStatus.Message (corev1.Pod.Status pod);
     Reason := corev1.PodStatus.Reason (corev1.Pod.Status pod);
     ContainerStatuses := corev1.PodStatus.ContainerStatuses (corev1.Pod.Status pod);
     InitContainerStatuses :=
       corev1.PodStatus.InitContainerStatuses (corev1.Pod.Status pod) |}.

Definition configMapInfo (cm : corev1.ConfigMap.t) : ConfigMapInfo :=
  {| ConfigMapMeta := metaInfo (corev1.ConfigMap.ObjectMeta cm);
     Data := corev1.ConfigMap.Data cm |}.

Definition serviceInfo (svc : corev1.Service.t) : ServiceInfo :=
  let ports := corev1.ServiceSpec.Ports (corev1.Service.Spec svc) in
  let svcInfoPorts :=
    (λ port,
       {| PortName := corev1.ServicePort.Name port;
          NodePort := corev1.ServicePort.NodePort port;
          TargetPort := intstr.IntVal (corev1.ServicePort.TargetPort port);
          TargetPortName := intstr.String (corev1.ServicePort.TargetPort port);
          ServicePortNumber := corev1.ServicePort.Port port;
          Protocol := corev1.ProtocolString (corev1.ServicePort.Protocol_ port) |})
      <$> ports in
  {| ServiceMeta := metaInfo (corev1.Service.ObjectMeta svc);
     Ports := svcInfoPorts |}.

(** [None] is the panic of a nil [DefaultBackend] or a nil [Service]. *)
Definition ingressInfo (ingress : netv1.Ingress.t) : option IngressInfo :=
  backend ← netv1.Ingress.DefaultBackend ingress;
  service ← netv1.IngressBackend.Service backend;
  Some {| IngressMeta := metaInfo (netv1.Ingress.ObjectMeta ingress);
          Rules := netv1.Ingress.Rules ingress;
          DefaultBackend :=
            fmt.Sprintf "%s:%d"
              [fmt.S (netv1.IngressServiceBackend.Name service);
               fmt.D (netv1.IngressServiceBackend.PortNumber service)] |}.

(** ** incluster/services.go: the service, the listings and the handlers *)

(** [url.Values]. *)
Abbreviation Values := (gmap string (list string)).

(** What a handler reads of its [echo.Context]: the path parameters and
    the parsed query string. *)
Record Context_ : Type := {
  Params : gmap string string;
  Query : Values
}.

(** [c.Param]. *)
Definition Param (c : Context_) (name : string) : string := index (Params c) name.

(** [c.QueryParam], which is [url.Values.Get]: the first value of the key,
    the empty string when there is none. *)
Definition QueryParam (c : Context_) (name : string) : string :=
  match Query c !! name with
  | Some (v :: _) => v
  | _ => ""
  end.

(** The JSON documents the handlers send. *)
Inductive Body : Type :=
  | BodyDeployments (deployments : list DeploymentInfo)
  | BodyPods (pods : list PodInfo)
  | BodyConfigMaps (cms : list ConfigMapInfo)
  | BodyServices (svcs : list ServiceInfo)
  | BodyIngresses (ingresses : list IngressInfo)
  | BodyListing (listing : ResourceInfo).

(** How a handler ends: it has sent [c.JSON(code, body)] and returned nil,
    or it has returned an error, which for an [HTTPError] is the status
    code and message of the response. *)
Inductive Reply : Type :=
  | JSON (code : Z) (body : Body)
  | Failed (err : error).

Definition StatusOK : Z := 200.
Definition StatusBadRequest : Z := 400.
Definition StatusForbidden : Z := 403.
Definition StatusNotFound : Z := 404.
Definition StatusInternalServerError : Z := 500.

(** [err.Error()]. *)
Fixpoint Error (err : error) : string :=
  match err with
  | ErrNoRows => "sql: no rows in result set"
  | Errorf msg => msg
  | Wrapped msg cause => msg +:+ ": " +:+ Error cause
  | HTTPError code message =>
      fmt.Sprintf "code=%d, message=%s" [fmt.D code; fmt.S message]
  end.

(** A value that the Go code obtains without a call, or a panic. *)
Definition lift {A : Type} (o : option A) : M A := ([], o).

(** [filterMap]; [None] is the panic of [v[0]] on a key without values
    (a query string that was parsed has none). *)
Definition filterMap (values : Values) : option (gmap string string) :=
  if bool_decide (map_Forall (λ _ v, v ≠ []) values)
  then Some ((λ v, default "" (head v)) <$> values)
  else None.

Section services.
Context `{Constants} `{Env}.

Definition getService (i : Incluster) (job : model.Job) : result corev1.Service.t :=
  match LabelsFromJob i job with
  | Err err => Err err
  | Ok labels =>
      Ok {| corev1.Service.ObjectMeta :=
              {| metav1.Name := fmt.Sprintf "vice-%s" [fmt.S (model.InvocationID job)];
                 metav1.Namespace := "";
                 metav1.Labels := labels;
                 metav1.CreationTimestamp := "" |};
            corev1.Service.Spec :=
              {| corev1.ServiceSpec.Selector :=
                   {[ "external-id" := model.InvocationID job ]};
                 corev1.ServiceSpec.Ports :=
                   [ {| corev1.ServicePort.Name := FileTransfersPortName;
                        corev1.ServicePort.Protocol_ := corev1.ProtocolTCP;
                        corev1.ServicePort.Port := FileTransfersPort;
                        corev1.ServicePort.NodePort := 0;
                        corev1.ServicePort.TargetPort :=
                          intstr.FromString FileTransfersPortName |};
                     {| corev1.ServicePort.Name := VICEProxyPortName;
                        corev1.ServicePort.Protocol_ := corev1.ProtocolTCP;
                        corev1.ServicePort.Port := VICEProxyServicePort;
                        corev1.ServicePort.NodePort := 0;
                        corev1.ServicePort.TargetPort :=
                          intstr.FromString VICEProxyPortName |} ] |} |}
  end.

(** [maps.Copy(allLabels, customLabels)] lets the custom labels win. *)
Definition getListSelector (customLabels : gmap string string) : labels.Selector :=
  let allLabels := customLabels ∪ {[ "app-type" := "interactive" ]} in
  labels.AsSelector allLabels.

(** [labels.NewRequirement] for the two operators in use. *)
Definition NewRequirement (key : string) (op : labels.Operator) (vals : list string)
    : result labels.Requirement :=
  if negb (validateLabelKey key) then Err (Errorf "invalid label key")
  else
    match op, vals with
    | labels.DoesNotExist, [] | labels.Equals, [_] =>
        Ok {| labels.key := key; labels.operator := op; labels.strValues := vals |}
    | _, _ => Err (Errorf "invalid number of values for the operator")
    end.

Definition getListOptions (customLabels : gmap string string)
    (missingLabels : list string) : metav1.ListOptions :=
  let s := getListSelector customLabels in
  let reqs :=
    foldl (λ reqs missingLabel,
             match NewRequirement missingLabel labels.DoesNotExist [] with
             | Err err => reqs          (* log.Error(err) *)
             | Ok newReq => reqs ++ [newReq]
             end) [] missingLabels in
  let s := labels.Add s reqs in
  {| metav1.LabelSelector := s |}.

Definition deploymentList (i : Incluster) (namespace : string)
    (customLabels : gmap string string) (missingLabels : list string)
    : M (result (list appsv1.Deployment.t)) :=
  let listOptions := getListOptions customLabels missingLabels in
  call (ClusterList KDeployment namespace listOptions)
       (kubernetes.DeploymentsList (clientset i) namespace listOptions).

Definition podList (i : Incluster) (namespace : string)
    (customLabels : gmap string string) (missingLabels : list string)
    : M (result (list corev1.Pod.t)) :=
  let listOptions := getListOptions customLabels missingLabels in
  call (ClusterList KPod namespace listOptions)
       (kubernetes.PodsList (clientset i) namespace listOptions).

Definition configmapsList (i : Incluster) (namespace : string)
    (customLabels : gmap string string) (missingLabels : list string)
    : M (result (list corev1.ConfigMap.t)) :=
  let listOptions := getListOptions customLabels missingLabels in
  call (ClusterList KConfigMap namespace listOptions)
       (kubernetes.ConfigMapsList (clientset i) namespace listOptions).

Definition serviceList (i : Incluster) (namespace : string)
    (customLabels : gmap string string) (missingLabels : list string)
    : M (result (list corev1.Service.t)) :=
  let listOptions := getListOptions customLabels missingLabels in
  call (ClusterList KService namespace listOptions)
       (kubernetes.ServicesList (clientset i) namespace listOptions).

Definition ingressList (i : Incluster) (namespace : string)
    (customLabels : gmap string string) (missingLabels : list string)
    : M (result (list netv1.Ingress.t)) :=
  let listOptions := getListOptions customLabels missingLabels in
  call (ClusterList KIngress namespace listOptions)
       (kubernetes.IngressesList (clientset i) namespace listOptions).

(** A loop that projects every listed item; a panic of the projection
    ends it. *)
Definition projectAll {A B : Type} (info : A → option B) (items : list A) : M (list B) :=
  lift (mapM info items).

Definition getFilteredDeployments (i : Incluster) (filter : gmap string string)
    : M (result (list DeploymentInfo)) :=
  r <- deploymentList i (ViceNamespace i) filter [] ;;
  match r with
  | Err err => ret (Err err)
  | Ok depList =>
      deployments <- projectAll deploymentInfo depList ;;
      ret (Ok deployments)
  end.

Definition FilterableDeploymentsHandler (i : Incluster) (c : Context_) : M Reply :=
  filter <- lift (filterMap (Query c)) ;;
  r <- getFilteredDeployments i filter ;;
  match r with
  | Err err => ret (Failed err)
  | Ok deployments => ret (JSON StatusOK (BodyDeployments deployments))
  end.

Definition getFilteredPods (i : Incluster) (filter : gmap string string)
    : M (result (list PodInfo)) :=
  r <- podList i (ViceNamespace i) filter [] ;;
  match r with
  | Err err => ret (Err err)
  | Ok podList => ret (Ok (podInfo <$> podList))
  end.

Definition FilterablePodsHandler (i : Incluster) (c : Context_) : M Reply :=
  filter <- lift (filterMap (Query c)) ;;
  r <- getFilteredPods i filter ;;
  match r with
  | Err err => ret (Failed err)
  | Ok pods => ret (JSON StatusOK (BodyPods pods))
  end.

Definition getFilteredConfigMaps (i : Incluster) (filter : gmap string string)
    : M (result (list ConfigMapInfo)) :=
  r <- configmapsList i (ViceNamespace i) filter [] ;;
  match r with
  | Err err => ret (Err err)
  | Ok cmList => ret (Ok (configMapInfo <$> cmList))
  end.

Definition FilterableConfigMapsHandler (i : Incluster) (c : Context_) : M Reply :=
  filter <- lift (filterMap (Query c)) ;;
  r <- getFilteredConfigMaps i filter ;;
  match r with
  | Err err => ret (Failed err)
  | Ok cms => ret (JSON StatusOK (BodyConfigMaps cms))
  end.

Definition getFilteredServices (i : Incluster) (filter : gmap string string)
    : M (result (list ServiceInfo)) :=
  r <- serviceList i (ViceNamespace i) filter [] ;;
  match r with
  | Err err => ret (Err err)
  | Ok svcList => ret (Ok (serviceInfo <$> svcList))
  end.

Definition FilterableServicesHandler (i : Incluster) (c : Context_) : M Reply :=
  filter <- lift (filterMap (Query c)) ;;
  r <- getFilteredServices i filter ;;
  match r with
  | Err err => ret (Failed err)
  | Ok svcs => ret (JSON StatusOK (BodyServices svcs))
  end.

Definition getFilteredIngresses (i : Incluster) (filter : gmap string string)
    : M (result (list IngressInfo)) :=
  r <- ingressList i (ViceNamespace i) filter [] ;;
  match r with
  | Err err => ret (Err err)
  | Ok ingList =>
      ingresses <- projectAll ingressInfo ingList ;;
      ret (Ok ingresses)
  end.

Definition FilterableIngressesHandler (i : Incluster) (c : Context_) : M Reply :=
  filter <- lift (filterMap (Query c)) ;;
  r <- getFilteredIngresses i filter ;;
  match r with
  | Err err => ret (Failed err)
  | Ok ingresses => ret (JSON StatusOK (BodyIngresses ingresses))
  end.

Definition fixUsername (i : Incluster) (username : string) : string :=
  FixUsername username (UserSuffix i).

Definition doResourceListing (i : Incluster) (filter : gmap string string)
    : M (result ResourceInfo) :=
  r <- getFilteredDeployments i filter ;;
  match r with
  | Err err => ret (Err err)
  | Ok deployments =>
  r <- getFilteredPods i filter ;;
  match r with
  | Err err => ret (Err err)
  | Ok pods =>
  r <- getFilteredConfigMaps i filter ;;
  match r with
  | Err err => ret (Err err)
  | Ok cms =>
  r <- getFilteredServices i filter ;;
  match r with
  | Err err => ret (Err err)
  | Ok svcs =>
  r <- getFilteredIngresses i filter ;;
  match r with
  | Err err => ret (Err err)
  | Ok ingresses =>
      ret (Ok {| Deployments := deployments;
                 Pods := pods;
                 ConfigMaps := cms;
                 Services := svcs;
                 Ingresses := ingresses |})
  end end end end end.

Definition AdminDescribeAnalysisHandler (i : Incluster) (c : Context_) : M Reply :=
  let host := Param c "host" in
  let filter : gmap string string := {[ "subdomain" := host ]} in
  r <- doResourceListing i filter ;;
  match r with
  | Err err => ret (Failed (HTTPError StatusInternalServerError (Error err)))
  | Ok listing => ret (JSON StatusOK (BodyListing listing))
  end.

Definition DescribeAnalysisHandler (i : Incluster) (c : Context_) : M Reply :=
  let host := Param c "host" in
  let user := QueryParam c "user" in
  if bool_decide (user = "") then
    ret (Failed (HTTPError StatusBadRequest "user query parameter must be set"))
  else
    let fixedUser := fixUsername i user in
    r <- call (AppsGetUserID fixedUser) (apps.GetUserID (apps_ i) fixedUser) ;;
    match r with
    | Err err =>
        if bool_decide (err = ErrNoRows) then
          ret (Failed (HTTPError StatusNotFound
                         (fmt.Sprintf "user %s not found" [fmt.S fixedUser])))
        else ret (Failed err)
    | Ok _ =>
        let filter : gmap string string := {[ "subdomain" := host ]} in
        r <- doResourceListing i filter ;;
        match r with
        | Err err => ret (Failed err)
        | Ok listing =>
            match Deployments listing with
            | deployment0 :: _ =>
                let externalID := ExternalID (DeploymentMeta deployment0) in
                r <- call (AppsGetAnalysisIDByExternalID externalID)
                          (apps.GetAnalysisIDByExternalID (apps_ i) externalID) ;;
                match r with
                | Err err => ret (Failed err)
                | Ok analysisID =>
                    r <- call (PermissionsIsAllowed (PermissionsURL i) user analysisID)
                              (IsAllowed (PermissionsURL i) user analysisID) ;;
                    match r with
                    | Err err => ret (Failed err)
                    | Ok allowed =>
                        if negb allowed then
                          ret (Failed (HTTPError StatusForbidden
                                 (fmt.Sprintf "user %s cannot access analysis %s"
                                    [fmt.S user; fmt.S analysisID])))
                        else ret (JSON StatusOK (BodyListing listing))
                    end
                end
            | [] => ret (JSON StatusOK (BodyListing listing))
            end
        end
    end.

Definition FilterableResourcesHandler (i : Incluster) (c : Context_) : M Reply :=
  let user := QueryParam c "user" in
  if bool_decide (user = "") then
    ret (Failed (HTTPError StatusBadRequest "user query parameter must be set"))
  else
    let user := fixUsername i user in
    r <- call (AppsGetUserID user) (apps.GetUserID (apps_ i) user) ;;
    match r with
    | Err err =>
        if bool_decide (err = ErrNoRows) then
          ret (Failed (HTTPError StatusNotFound
                         (fmt.Sprintf "user %s not found" [fmt.S user])))
        else ret (Failed (HTTPError StatusInternalServerError (Error err)))
    | Ok userID =>
        filter <- lift (filterMap (Query c)) ;;
        let filter := delete "user" filter in
        let filter := <["user-id" := userID]> filter in
        r <- doResourceListing i filter ;;
        match r with
        | Err err => ret (Failed (HTTPError StatusInternalServerError (Error err)))
        | Ok listing => ret (JSON StatusOK (BodyListing listing))
        end
    end.

Definition AdminFilterableResourcesHandler (i : Incluster) (c : Context_) : M Reply :=
  filter <- lift (filterMap (Query c)) ;;
  r <- doResourceListing i filter ;;
  match r with
  | Err err => ret (Failed (HTTPError StatusInternalServerError (Error err)))
  | Ok listing => ret (JSON StatusOK (BodyListing listing))
  end.

(** The three functions below return the label map they were given (a Go
    map is updated in place) and, for two of them, an error or nil. *)
Definition populateAnalysisID (a : apps.Apps) (existingLabels : gmap string string)
    : M (gmap string string * option error) :=
  match existingLabels !! "analysis-id" with
  | Some _ => ret (existingLabels, None)
  | None =>
      match existingLabels !! "external-id" with
      | None => ret (existingLabels, Some (Errorf "missing external-id key"))
      | Some externalID =>
          r <- call (AppsGetAnalysisIDByExternalID externalID)
                    (apps.GetAnalysisIDByExternalID a externalID) ;;
          match r with
          | Err err => ret (existingLabels, None)       (* log.Debug *)
          | Ok analysisID => ret (<["analysis-id" := analysisID]> existingLabels, None)
          end
      end
  end.

Definition populateSubdomain (existingLabels : gmap string string) : gmap string string :=
  match existingLabels !! "subdomain" with
  | Some _ => existingLabels
  | None =>
      match existingLabels !! "external-id" with
      | Some externalID =>
          match existingLabels !! "user-id" with
          | Some userID => <["subdomain" := IngressName userID externalID]> existingLabels
          | None => existingLabels
          end
      | None => existingLabels
      end
  end.

Definition populateLoginIP (a : apps.Apps) (existingLabels : gmap string string)
    : M (gmap string string * option error) :=
  match existingLabels !! "login-ip" with
  | Some _ => ret (existingLabels, None)
  | None =>
      match existingLabels !! "user-id" with
      | Some userID =>
          r <- call (AppsGetUserIP userID) (apps.GetUserIP a userID) ;;
          match r with
          | Err err => ret (existingLabels, Some err)
          | Ok ipAddr => ret (<["login-ip" := ipAddr]> existingLabels, None)
          end
      | None => ret (existingLabels, None)
      end
  end.

(** [if err != nil { errors = append(errors, err) }]. *)
Definition appendErr (errors : list error) (err : option error) : list error :=
  match err with
  | Some e => errors ++ [e]
  | None => errors
  end.

(** The labels that the body of each relabelling loop computes for an
    object, with the errors it collects on the way. *)
Definition relabel (i : Incluster) (errors : list error) (existingLabels : gmap string string)
    : M (gmap string string * list error) :=
  let existingLabels := populateSubdomain existingLabels in
  r <- populateLoginIP (apps_ i) existingLabels ;;
  let '(existingLabels, err) := r in
  let errors := appendErr errors err in
  r <- populateAnalysisID (apps_ i) existingLabels ;;
  let '(existingLabels, err) := r in
  let errors := appendErr errors err in
  ret (existingLabels, errors).

(** [deployment.SetLabels(existingLabels)] and its three siblings. *)
Definition DeploymentSetLabels (d : appsv1.Deployment.t) (l : gmap string string)
    : appsv1.Deployment.t :=
  {| appsv1.Deployment.ObjectMeta := metav1.SetLabels (appsv1.Deployment.ObjectMeta d) l;
     appsv1.Deployment.Containers := appsv1.Deployment.Containers d |}.

Definition ConfigMapSetLabels (cm : corev1.ConfigMap.t) (l : gmap string string)
    : corev1.ConfigMap.t :=
  {| corev1.ConfigMap.ObjectMeta := metav1.SetLabels (corev1.ConfigMap.ObjectMeta cm) l;
     corev1.ConfigMap.Data := corev1.ConfigMap.Data cm |}.

Definition ServiceSetLabels (svc : corev1.Service.t) (l : gmap string string)
    : corev1.Service.t :=
  {| corev1.Service.ObjectMeta := metav1.SetLabels (corev1.Service.ObjectMeta svc) l;
     corev1.Service.Spec := corev1.Service.Spec svc |}.

Definition IngressSetLabels (ing : netv1.Ingress.t) (l : gmap string string)
    : netv1.Ingress.t :=
  {| netv1.Ingress.ObjectMeta := metav1.SetLabels (netv1.Ingress.ObjectMeta ing) l;
     netv1.Ingress.Rules := netv1.Ingress.Rules ing;
     netv1.Ingress.DefaultBackend := netv1.Ingress.DefaultBackend ing |}.

Definition relabelDeployments (i : Incluster) : M (list error) :=
  let filter : gmap string string := ∅ in
  let errors : list error := [] in
  r <- deploymentList i (ViceNamespace i) filter ["subdomain"] ;;
  match r with
  | Err err => ret (errors ++ [err])
  | Ok deployments =>
      forRange deployments
        (λ errors deployment,
           r <- relabel i errors (metav1.Labels (appsv1.Deployment.ObjectMeta deployment)) ;;
           let '(existingLabels, errors) := r in
           let deployment := DeploymentSetLabels deployment existingLabels in
           err <- call (ClusterUpdate (ViceNamespace i) (ODeployment deployment))
                       (kubernetes.DeploymentsUpdate (clientset i) (ViceNamespace i) deployment) ;;
           ret (appendErr errors err))
        errors
  end.

Definition relabelConfigMaps (i : Incluster) : M (list error) :=
  let filter : gmap string string := ∅ in
  let errors : list error := [] in
  r <- configmapsList i (ViceNamespace i) filter ["subdomain"] ;;
  match r with
  | Err err => ret (errors ++ [err])
  | Ok cms =>
      forRange cms
        (λ errors configmap,
           r <- relabel i errors (metav1.Labels (corev1.ConfigMap.ObjectMeta configmap)) ;;
           let '(existingLabels, errors) := r in
           let configmap := ConfigMapSetLabels configmap existingLabels in
           err <- call (ClusterUpdate (ViceNamespace i) (OConfigMap configmap))
                       (kubernetes.ConfigMapsUpdate (clientset i) (ViceNamespace i) configmap) ;;
           ret (appendErr errors err))
        errors
  end.

Definition relabelServices (i : Incluster) : M (list error) :=
  let filter : gmap string string := ∅ in
  let errors : list error := [] in
  r <- serviceList i (ViceNamespace i) filter ["subdomain"] ;;
  match r with
  | Err err => ret (errors ++ [err])
  | Ok svcs =>
      forRange svcs
        (λ errors service,
           r <- relabel i errors (metav1.Labels (corev1.Service.ObjectMeta service)) ;;
           let '(existingLabels, errors) := r in
           let service := ServiceSetLabels service existingLabels in
           err <- call (ClusterUpdate (ViceNamespace i) (OService service))
                       (kubernetes.ServicesUpdate (clientset i) (ViceNamespace i) service) ;;
           ret (appendErr errors err))
        errors
  end.

Definition relabelIngresses (i : Incluster) : M (list error) :=
  let filter : gmap string string := ∅ in
  let errors : list error := [] in
  r <- ingressList i (ViceNamespace i) filter ["subdomain"] ;;
  match r with
  | Err err => ret (errors ++ [err])
  | Ok ingresses =>
      forRange ingresses
        (λ errors ingress,
           r <- relabel i errors (metav1.Labels (netv1.Ingress.ObjectMeta ingress)) ;;
           let '(existingLabels, errors) := r in
           let ingress := IngressSetLabels ingress existingLabels in
           err <- call (ClusterUpdate (ViceNamespace i) (OIngress ingress))
                       (kubernetes.IngressesUpdate (clientset i) (ViceNamespace i) ingress) ;;
           ret (appendErr errors err))
        errors
  end.

(** [if len(xs) > 0 { errors = append(errors, xs...) }]. *)
Definition ApplyAsyncLabels (i : Incluster) : M (list error) :=
  let errors : list error := [] in
  labelDepsErrors <- relabelDeployments i ;;
  let errors := errors ++ labelDepsErrors in
  labelCMErrors <- relabelConfigMaps i ;;
  let errors := errors ++ labelCMErrors in
  labelSVCErrors <- relabelServices i ;;
  let errors := errors ++ labelSVCErrors in
  labelIngressesErrors <- relabelIngresses i ;;
  let errors := errors ++ labelIngressesErrors in
  ret errors.

(** What [ApplyAsyncLabelsHandler] sends: [c.String(code, body)] or
    [c.NoContent(code)]. *)
Inductive TextReply : Type :=
  | StringReply (code : Z) (body : string)
  | NoContent (code : Z).

Definition newline : string := String (ascii_of_nat 10) EmptyString.

(** The loop that writes the message of each error and a newline to the
    [strings.Builder]. *)
Definition errorLines (errs : list error) : string :=
  foldl (λ errMsg err, errMsg +:+ fmt.Sprintf ("%s" +:+ newline) [fmt.S (Error err)])
        "" errs.

Definition ApplyAsyncLabelsHandler (i : Incluster) : M TextReply :=
  errs <- ApplyAsyncLabels i ;;
  if bool_decide (0 < length errs)%nat then
    ret (StringReply StatusInternalServerError (errorLines errs))
  else ret (NoContent StatusOK).

End services.

(** ** The API server's side of [List]

    The contract of the cluster that the sweep relies on: [List] answers
    with the objects of the namespace whose labels satisfy the selector. *)

Record Cluster : Type := {
  deployments : list appsv1.Deployment.t;
  pods : list corev1.Pod.t;
  configMaps : list corev1.ConfigMap.t;
  services : list corev1.Service.t;
  ingresses : list netv1.Ingress.t
}.

Definition selected (namespace : string) (opts : metav1.ListOptions)
    (o : metav1.ObjectMeta) : bool :=
  bool_decide (metav1.Namespace o = namespace)
  && labels.SelectorMatches (metav1.LabelSelector opts) (metav1.Labels o).

Definition listMatching {A : Type} (meta : A → metav1.ObjectMeta) (items : list A)
    (namespace : string) (opts : metav1.ListOptions) : result (list A) :=
  Ok (filter (λ x, selected namespace opts (meta x) = true) items).

(** A cluster that holds [cl] and answers [updated] to the updates. *)
Definition serve (cl : Cluster) (updated : Object → option error) : kubernetes.Interface :=
  {| kubernetes.DeploymentsList := listMatching appsv1.Deployment.ObjectMeta (deployments cl);
     kubernetes.DeploymentsUpdate := λ _ d, updated (ODeployment d);
     kubernetes.PodsList := listMatching corev1.Pod.ObjectMeta (pods cl);
     kubernetes.ConfigMapsList := listMatching corev1.ConfigMap.ObjectMeta (configMaps cl);
     kubernetes.ConfigMapsUpdate := λ _ c, updated (OConfigMap c);
     kubernetes.ServicesList := listMatching corev1.Service.ObjectMeta (services cl);
     kubernetes.ServicesUpdate := λ _ s, updated (OService s);
     kubernetes.IngressesList := listMatching netv1.Ingress.ObjectMeta (ingresses cl);
     kubernetes.IngressesUpdate := λ _ g, updated (OIngress g) |}.


(** ** Fixtures: a small concrete world *)

Module Fixtures.

#[export] Instance constants : Constants :=
  {| CSIDriverName := "irods.csi.cyverse.org";
     CSIDriverStorageClassName := "irods-sc";
     CSIDriverDataVolumeNamePrefix := "csi-data-volume";
     CSIDriverDataVolumeClaimNamePrefix := "csi-data-volume-claim";
     CSIDriverInputVolumeMountPath := "/input";
     CSIDriverOutputVolumeMountPath := "/output";
     CSIDriverLocalMountPath := "/data-store";
     FileTransfersPort := 60001;
     VICEProxyServicePort := 60000 |}.

Definition quote : string := String (ascii_of_nat 34) EmptyString.

(** A JSON encoder for the fixtures, exact on texts that hold no
    character that JSON or Go escape. *)
Definition jsonString (s : string) : string := quote +:+ s +:+ quote.

Definition jsonBool (b : bool) : string := if b then "true" else "false".

Definition jsonMapping (m : IRODSFSPathMapping) : string :=
  "{" +:+ jsonString "irods_path" +:+ ":" +:+ jsonString (IRODSPath m) +:+ ","
  +:+ jsonString "mapping_path" +:+ ":" +:+ jsonString (MappingPath m) +:+ ","
  +:+ jsonString "resource_type" +:+ ":" +:+ jsonString (ResourceType m) +:+ ","
  +:+ jsonString "read_only" +:+ ":" +:+ jsonBool (ReadOnly m) +:+ ","
  +:+ jsonString "create_dir" +:+ ":" +:+ jsonBool (CreateDir m) +:+ ","
  +:+ jsonString "ignore_not_exist_error" +:+ ":" +:+ jsonBool (IgnoreNotExistError m)
  +:+ "}".

Definition jsonMappings (ms : list IRODSFSPathMapping) : result string :=
  Ok ("[" +:+ String.concat "," (jsonMapping <$> ms) +:+ "]").

Definition jobLabels (i : Incluster) (job : model.Job) : result (gmap string string) :=
  Ok (<["app-type" := "interactive"]>
      (<["external-id" := model.InvocationID job]>
      (<["username" := model.Submitter job]> ∅))).

(** Permissions allows [alice] and nobody else. *)
Definition allowAlice (baseURL user analysisID : string) : result bool :=
  Ok (bool_decide (user = "alice")).

#[export] Instance env : Env :=
  {| json_Marshal := jsonMappings;
     validateLabelKey := λ k, negb (bool_decide (k = ""));
     LabelsFromJob := jobLabels;
     IngressName := λ userID externalID, "a" +:+ userID +:+ "-" +:+ externalID;
     IsAllowed := allowAlice |}.

(** Apps knows [alice] and [bob] (with the suffix), the analysis [abc123]
    and the address of [alice-id]. *)
Definition theApps : apps.Apps :=
  {| apps.GetUserID := λ username,
       if bool_decide (username = "alice@example.org") then Ok "alice-id"
       else if bool_decide (username = "bob@example.org") then Ok "bob-id"
       else Err ErrNoRows;
     apps.GetAnalysisIDByExternalID := λ externalID,
       if bool_decide (externalID = "abc123") then Ok "analysis-1" else Err ErrNoRows;
     apps.GetUserIP := λ userID,
       if bool_decide (userID = "alice-id") then Ok "10.0.0.7" else Err ErrNoRows |}.

Definition meta (name : string) (labels : gmap string string) : metav1.ObjectMeta :=
  {| metav1.Name := name; metav1.Namespace := "vice-apps"; metav1.Labels := labels;
     metav1.CreationTimestamp := "2024-01-01 00:00:00 +0000 UTC" |}.

Definition analysis : corev1.Container.t :=
  {| corev1.Container.Name := "analysis";
     corev1.Container.Image := "harbor.cyverse.org/vice/jupyter";
     corev1.Container.Command := [];
     corev1.Container.Ports := [8888%Z];
     corev1.Container.SecurityContext_ :=
       Some {| corev1.SecurityContext.RunAsUser := Some 1000%Z;
               corev1.SecurityContext.RunAsGroup := Some 1000%Z |} |}.

(** Labels of alice's analysis before and after the sweep has completed
    them, and with the subdomain set but no login address. *)
Definition baseLabels : gmap string string :=
  <["app-type" := "interactive"]>
  (<["external-id" := "abc123"]>
  (<["user-id" := "alice-id"]> ∅)).


Definition deployment (labels : gmap string string) : appsv1.Deployment.t :=
  {| appsv1.Deployment.ObjectMeta := meta "vice-abc123" labels;
     appsv1.Deployment.Containers := [analysis] |}.

Definition clusterWith (labels : gmap string string) : Cluster :=
  {| deployments := [deployment labels];
     pods := [];
     configMaps := [];
     services := [];
     ingresses := [] |}.

Definition incluster (cl : Cluster) : Incluster :=
  {| UseCSIDriver := true;
     IRODSZone := "zone";
     ViceNamespace := "vice-apps";
     UserSuffix := "@example.org";
     PermissionsURL := "http://permissions";
     apps_ := theApps;
     clientset := serve cl (λ _, None) |}.

Definition input (type path : string) : model.StepInput :=
  {| model.InputType := type; model.IRODSPath := path |}.

Definition step (uid gid : Z) (inputs : list model.StepInput) : model.Step :=
  {| model.Component := {| model.Container_ := {| model.UID := uid; model.GID := gid |} |};
     model.Config := {| model.Inputs := inputs |} |}.

Definition job (steps : list model.Step) : model.Job :=
  {| model.InvocationID := "abc123";
     model.Submitter := "alice";
     model.UserHome := "/zone/home/alice";
     model.OutputDirectory := "/zone/home/alice/out";
     model.Steps := steps |}.

(** The controller in front of a cluster that holds alice's analysis,
    not yet relabelled. *)
Definition world : Incluster := incluster (clusterWith baseLabels).

Definition jobOf (inputs : list model.StepInput) : model.Job :=
  job [step 1000 2000 inputs].

Definition request (query : Values) : Context_ :=
  {| Params := {[ "host" := "aalice-id-abc123" ]}; Query := query |}.

(** A job-status listener that answers every POST with the status [code]. *)
Definition net (code : Z) : publisher.Net :=
  {| publisher.FailedState := "Failed";
     publisher.SucceededState := "Completed";
     publisher.RunningState := "Running";
     publisher.hostname := "app-exposer-0";
     publisher.URL := string;
     publisher.url_Parse := Ok;
     publisher.withPath := λ u path, u +:+ "/" +:+ path;
     publisher.URLString := λ u, u;
     publisher.path_Join := String.concat "/";
     publisher.status_Marshal := λ status, Ok (publisher.Message status);
     publisher.NewRequestWithContext := λ method url body,
       Ok {| publisher.Method := method; publisher.RequestURL := url;
             publisher.RequestBody := body; publisher.Header := ∅ |};
     publisher.httpClient_Do := λ req,
       Ok {| publisher.StatusCode := code; publisher.BodyText := "" |} |}.

Definition jsl : publisher.JSLPublisher :=
  {| publisher.statusURL := "http://job-status-listener" |}.


(** A cluster that holds an analysis of bob, completely labelled. *)
Definition bobLabels : gmap string string :=
  <["app-type" := "interactive"]>
  (<["external-id" := "abc123"]>
  (<["user-id" := "bob-id"]>
  (<["subdomain" := "abob-id-abc123"]>
  (<["login-ip" := "10.0.0.8"]>
  (<["analysis-id" := "analysis-1"]> ∅))))).

Definition bobWorld : Incluster := incluster (clusterWith bobLabels).

Definition bobRequest : Context_ :=
  {| Params := {[ "host" := "abob-id-abc123" ]}; Query := {[ "user" := ["bob"] ]} |}.

End Fixtures.

(** ** Vocabulary of the theorems *)

(** The inputs of a job in the order the two loops walk them. *)
Definition allInputs (steps : list model.Step) : list model.StepInput :=
  concat ((λ step, model.Inputs (model.Config step)) <$> steps).

Definition withInputs (step : model.Step) (inputs : list model.StepInput) : model.Step :=
  {| model.Component := model.Component step;
     model.Config := {| model.Inputs := inputs |} |}.

Definition withSteps (job : model.Job) (steps : list model.Step) : model.Job :=
  {| model.InvocationID := model.InvocationID job;
     model.Submitter := model.Submitter job;
     model.UserHome := model.UserHome job;
     model.OutputDirectory := model.OutputDirectory job;
     model.Steps := steps |}.

(** Where an input with the remote path [irodsPath] is mounted. *)
Definition mountPathOf `{Constants} (irodsPath : string) : string :=
  fmt.Sprintf "%s/%s" [fmt.S CSIDriverInputVolumeMountPath; fmt.S (filepath.Base irodsPath)].

(** The two errors of [getInputPathMappings]. *)
Definition InvalidInputType (type : string) : error :=
  Errorf (fmt.Sprintf "unknown step input type - %s" [fmt.S type]).

Definition InputPathCollision (mountPath existingIRODSPath newIRODSPath : string) : error :=
  Errorf (fmt.Sprintf "tried to mount an input file %s at %s already used by - %s"
            [fmt.S newIRODSPath; fmt.S mountPath; fmt.S existingIRODSPath]).

(** The input types the walk accepts, after lowercasing. *)
Definition fileType (type : string) : Prop :=
  strings.ToLower type = "fileinput" ∨ strings.ToLower type = "multifileselector".

Definition folderType (type : string) : Prop :=
  strings.ToLower type = "folderinput".

Definition recognised (type : string) : Prop := fileType type ∨ folderType type.

(** The resource type the walk gives to an accepted input type. *)
Definition resourceTypeOf (type : string) : string :=
  if bool_decide (strings.ToLower type = "folderinput") then "dir" else "file".

(** The mapping the walk appends for an input. *)
Definition inputMapping `{Constants} (x : model.StepInput) : IRODSFSPathMapping :=
  {| IRODSPath := model.IRODSPath x;
     MappingPath := mountPathOf (model.IRODSPath x);
     ResourceType := resourceTypeOf (model.InputType x);
     ReadOnly := true;
     CreateDir := false;
     IgnoreNotExistError := true |}.

(** The attributes of the CSI source of a persistent volume. *)
Definition csiAttributes (pv : corev1.PersistentVolume.t) : gmap string string :=
  match corev1.PersistentVolumeSpec.CSI (corev1.PersistentVolume.Spec pv) with
  | Some csi => corev1.CSIPersistentVolumeSource.VolumeAttributes csi
  | None => ∅
  end.

(** An event is a call to the Permissions service, to the Apps service. *)
Definition isPermissionsCall (e : Event) : Prop :=
  match e with PermissionsIsAllowed _ _ _ => True | _ => False end.

Definition isAppsCall (e : Event) : Prop :=
  match e with
  | AppsGetUserID _ | AppsGetAnalysisIDByExternalID _ | AppsGetUserIP _ => True
  | _ => False
  end.

Definition isUpdate (e : Event) : Prop :=
  match e with ClusterUpdate _ _ => True | _ => False end.


(** The objects that the sweep lists: in the namespace of the analyses,
    labelled [app-type=interactive], without the label [subdomain]. *)
Definition swept (i : Incluster) (o : metav1.ObjectMeta) : Prop :=
  metav1.Namespace o = ViceNamespace i
  ∧ metav1.Labels o !! "app-type" = Some "interactive"
  ∧ metav1.Labels o !! "subdomain" = None.

(** An input that has a remote path. *)
Definition hasPath (x : model.StepInput) : Prop := model.IRODSPath x ≠ "".

(** The mappings of the inputs that have a remote path, in the order of
    the walk. *)
Definition mappedInputs `{Constants} (inputs : list model.StepInput)
    : list IRODSFSPathMapping :=
  inputMapping <$> filter hasPath inputs.

(** The two variables of the walk agree: the mapping paths are pairwise
    distinct and the occupied mount paths are the mapping paths. *)
Definition walkInv (st : walkState) : Prop :=
  NoDup (MappingPath <$> st.2)
  ∧ ∀ k, is_Some (st.1 !! k) ↔ k ∈ MappingPath <$> st.2.

(** The five calls of a composite listing, in the order of the code. *)
Definition listCalls `{Env} (i : Incluster) (filter : gmap string string) : list Event :=
  (λ kind, ClusterList kind (ViceNamespace i) (getListOptions filter []))
    <$> [KDeployment; KPod; KConfigMap; KService; KIngress].

Definition isListCall (e : Event) : Prop :=
  match e with ClusterList _ _ _ => True | _ => False end.

(** A container that [deploymentInfo] can read: it is not the analysis
    container, or it has a port and a security context with a user and a
    group. *)
Definition readable (container : corev1.Container.t) : Prop :=
  corev1.Container.Name container = "analysis" →
  ∃ port0 ports runAsUser runAsGroup,
    corev1.Container.Ports container = port0 :: ports
    ∧ corev1.Container.SecurityContext_ container
      = Some {| corev1.SecurityContext.RunAsUser := Some runAsUser;
                corev1.SecurityContext.RunAsGroup := Some runAsGroup |}.

(** The last container named [analysis]. *)
Definition lastAnalysis (containers : list corev1.Container.t) : option corev1.Container.t :=
  last (filter (λ c, corev1.Container.Name c = "analysis") containers).

(** The three labels that the reconciler derives. *)
Definition derivedLabel (k : string) : Prop :=
  k = "subdomain" ∨ k = "login-ip" ∨ k = "analysis-id".

(** The cluster answers [err] to the listing of the objects of a kind. *)
Definition listFails (i : Incluster) (kind : ObjectKind) (opts : metav1.ListOptions)
    (err : error) : Prop :=
  match kind with
  | KDeployment => kubernetes.DeploymentsList (clientset i) (ViceNamespace i) opts = Err err
  | KPod => kubernetes.PodsList (clientset i) (ViceNamespace i) opts = Err err
  | KConfigMap => kubernetes.ConfigMapsList (clientset i) (ViceNamespace i) opts = Err err
  | KService => kubernetes.ServicesList (clientset i) (ViceNamespace i) opts = Err err
  | KIngress => kubernetes.IngressesList (clientset i) (ViceNamespace i) opts = Err err
  end.

(** The objects of a list that a listing with the filter selects. *)
Definition matching `{Env} {A : Type} (meta : A → metav1.ObjectMeta) (i : Incluster)
    (filter : gmap string string) (items : list A) : list A :=
  base.filter
    (λ x, selected (ViceNamespace i) (getListOptions filter []) (meta x) = true) items.

(** The listing that the sweep makes of the objects of a kind. *)
Definition sweepCall `{Env} (i : Incluster) (kind : ObjectKind) : Event :=
  ClusterList kind (ViceNamespace i) (getListOptions ∅ ["subdomain"]).

(** * Part II: theorems *)

(** ** Loops *)

Lemma rangeResult_app {A S : Type} (body : S → A → result S) (xs ys : list A) (s : S) :
  rangeResult (xs ++ ys) body s =
  match rangeResult xs body s with
  | Err e => Err e
  | Ok s' => rangeResult ys body s'
  end.
Proof.
  revert s. induction xs as [|x xs IH]; intros s; simpl; [done|].
  destruct (body s x); [apply IH | done].
Qed.

Section volume_theorems.
Context `{Constants}.

(** The two nested loops are one loop over all the inputs. *)
Lemma walk_steps_inputs (steps : list model.Step) (st : walkState) :
  rangeResult steps walkStep st = rangeResult (allInputs steps) walkInput st.
Proof.
  revert st. induction steps as [|step steps IH]; intros st; [done|].
  unfold allInputs. simpl. rewrite rangeResult_app. unfold walkStep at 1.
  destruct (rangeResult _ walkInput st); [apply IH | done].
Qed.

Lemma allInputs_app (xs ys : list model.Step) :
  allInputs (xs ++ ys) = allInputs xs ++ allInputs ys.
Proof. unfold allInputs. by rewrite fmap_app, concat_app. Qed.

Lemma getInputPathMappings_walk (i : Incluster) (job : model.Job) :
  getInputPathMappings i job =
  match rangeResult (allInputs (model.Steps job)) walkInput (∅, []) with
  | Err e => Err e
  | Ok st => Ok st.2
  end.
Proof.
  unfold getInputPathMappings. rewrite walk_steps_inputs.
  by destruct (rangeResult _ walkInput _) as [[m ms]|e].
Qed.

(** An input without a remote path leaves the walk where it was. *)
Lemma walkInput_empty_path (st : walkState) (x : model.StepInput) :
  model.IRODSPath x = "" → walkInput st x = Ok st.
Proof.
  intros Hx. unfold walkInput. destruct st as [m ms]. rewrite Hx. by simpl.
Qed.

Lemma nonempty_length (s : string) : s ≠ "" → (0 < String.length s)%nat.
Proof. destruct s; [done | simpl; lia]. Qed.



(** One iteration of the walk on an input that has a remote path: the
    type is checked first, the mount path second. *)
Lemma walkInput_unknown (st : walkState) (x : model.StepInput) :
  model.IRODSPath x ≠ "" → ¬ recognised (model.InputType x) →
  walkInput st x = Err (InvalidInputType (model.InputType x)).
Proof.
  intros Hx Hty. unfold walkInput. destruct st as [m ms].
  rewrite (bool_decide_eq_true_2 _ (nonempty_length _ Hx)).
  unfold recognised, fileType, folderType in Hty. unfold InvalidInputType.
  repeat case_bool_decide; first [reflexivity | exfalso; apply Hty; auto].
Qed.

Lemma walkInput_collision (m : gmap string string) (ms : list IRODSFSPathMapping)
    (x : model.StepInput) (existing : string) :
  model.IRODSPath x ≠ "" → recognised (model.InputType x) →
  m !! mountPathOf (model.IRODSPath x) = Some existing →
  walkInput (m, ms) x =
  Err (InputPathCollision (mountPathOf (model.IRODSPath x)) existing (model.IRODSPath x)).
Proof.
  intros Hx Hty Hm. unfold walkInput.
  rewrite (bool_decide_eq_true_2 _ (nonempty_length _ Hx)).
  unfold mountPathOf in Hm. rewrite Hm. unfold InputPathCollision, mountPathOf.
  destruct Hty as [[Ht|Ht]|Ht]; unfold folderType in *; rewrite Ht;
    repeat case_bool_decide; congruence.
Qed.

Lemma walkInput_fresh (m : gmap string string) (ms : list IRODSFSPathMapping)
    (x : model.StepInput) :
  model.IRODSPath x ≠ "" → recognised (model.InputType x) →
  m !! mountPathOf (model.IRODSPath x) = None →
  walkInput (m, ms) x =
  Ok (<[mountPathOf (model.IRODSPath x) := model.IRODSPath x]> m, ms ++ [inputMapping x]).
Proof.
  intros Hx Hty Hm. unfold walkInput.
  rewrite (bool_decide_eq_true_2 _ (nonempty_length _ Hx)).
  unfold mountPathOf in Hm. rewrite Hm. unfold inputMapping, resourceTypeOf, mountPathOf.
  destruct Hty as [[Ht|Ht]|Ht]; unfold folderType in *; rewrite Ht;
    repeat case_bool_decide; congruence.
Qed.



Lemma walk_skip (pre post : list model.StepInput) (x : model.StepInput) (st : walkState) :
  model.IRODSPath x = "" →
  rangeResult (pre ++ x :: post) walkInput st = rangeResult (pre ++ post) walkInput st.
Proof.
  intros Hx. rewrite !rangeResult_app.
  destruct (rangeResult pre walkInput st) as [st'|e]; [|done].
  cbn [rangeResult]. by rewrite walkInput_empty_path.
Qed.

(** C10.  An input whose remote path is empty is skipped entirely: the
    result of the synthesis of the path mappings, list or error, is the
    one of the job without that input.  Hence the input adds no mapping,
    takes part in no collision and its type, known or not, is never
    looked at. *)
Theorem empty_path_input_is_skipped (i : Incluster) (job : model.Job)
    (before after : list model.Step) (step : model.Step)
    (pre post : list model.StepInput) (x : model.StepInput) :
  model.Steps job = before ++ step :: after →
  model.Inputs (model.Config step) = pre ++ x :: post →
  model.IRODSPath x = "" →
  getInputPathMappings i job =
  getInputPathMappings i (withSteps job (before ++ withInputs step (pre ++ post) :: after)).
Proof.
  intros Hsteps Hinputs Hx. rewrite !getInputPathMappings_walk. cbn [withSteps model.Steps].
  rewrite Hsteps, !allInputs_app.
  change (allInputs (step :: after)) with (model.Inputs (model.Config step) ++ allInputs after).
  change (allInputs (withInputs step (pre ++ post) :: after))
    with ((pre ++ post) ++ allInputs after).
  rewrite Hinputs, !(rangeResult_app _ (allInputs before)).
  destruct (rangeResult (allInputs before) walkInput (∅, [])) as [st|e]; [|done].
  rewrite (rangeResult_app _ (pre ++ x :: post)), (rangeResult_app _ (pre ++ post)).
  by rewrite walk_skip.
Qed.









End volume_theorems.

(** ** The persistent volume *)

Section persistent_volume_theorems.
Context `{Constants} `{Env}.

(** What [getPersistentVolumes] puts in the attributes of the CSI source,
    for every job for which it returns a volume: the [gid] attribute is, as
    the [uid] attribute, the rendering of the container's UID. *)
Lemma csi_attributes_of_persistent_volume (i : Incluster) (job : model.Job)
    (pvs : list corev1.PersistentVolume.t) :
  UseCSIDriver i = true →
  getPersistentVolumes i job = Some (Ok pvs) →
  ∃ step0 inputPathMappings json pv,
    model.Steps job !! 0%nat = Some step0
    ∧ getInputPathMappings i job = Ok inputPathMappings
    ∧ json_Marshal (dataPathMappings i job inputPathMappings) = Ok json
    ∧ pvs = [pv]
    ∧ csiAttributes pv !! "clientUser" = Some (model.Submitter job)
    ∧ csiAttributes pv !! "client" = Some "irodsfuse"
    ∧ csiAttributes pv !! "no_permission_check" = Some "true"
    ∧ csiAttributes pv !! "path_mapping_json" = Some json
    ∧ csiAttributes pv !! "uid" =
        Some (fmt.Sprintf "%d" [fmt.D (model.UID (model.Container_ (model.Component step0)))])
    ∧ csiAttributes pv !! "gid" =
        Some (fmt.Sprintf "%d" [fmt.D (model.UID (model.Container_ (model.Component step0)))]).
Proof.
  intros Hcsi. unfold getPersistentVolumes. rewrite Hcsi.
  destruct (getInputPathMappings i job) as [inputPathMappings|e]; [|done].
  destruct (json_Marshal _) as [json|e] eqn:Hjson; [|done].
  destruct (getCSIDataVolumeLabels i job) as [dataVolumeLabels|e]; [|done].
  destruct (model.Steps job !! 0%nat) as [step0|]; [|done].
  cbn [mbind option_bind]. intros [= <-].
  eexists step0, inputPathMappings, json, _.
  repeat (split; [reflexivity|]). unfold csiAttributes.
  cbn [corev1.PersistentVolume.Spec corev1.PersistentVolumeSpec.CSI
       corev1.CSIPersistentVolumeSource.VolumeAttributes].
  repeat split; by simplify_map_eq.
Qed.

End persistent_volume_theorems.

(** ** The service *)

Section service_theorems.
Context `{Constants} `{Env}.

Lemma getService_returns (i : Incluster) (job : model.Job) (labels : gmap string string) :
  LabelsFromJob i job = Ok labels → ∃ svc, getService i job = Ok svc.
Proof. intros Hl. unfold getService. rewrite Hl. by eexists. Qed.

(** C8.  The service synthesized for a job has exactly two ports, named
    [file-transfers] and [vice-proxy] in this order; the target port of
    each is of the string kind and holds the name of the port, never a
    number; the selector is the single label [external-id] with the job's
    [InvocationID]. *)
Theorem service_ports_and_selector (i : Incluster) (job : model.Job)
    (svc : corev1.Service.t) :
  getService i job = Ok svc →
  corev1.ServicePort.Name <$> corev1.ServiceSpec.Ports (corev1.Service.Spec svc)
    = ["file-transfers"; "vice-proxy"]
  ∧ (∀ p, p ∈ corev1.ServiceSpec.Ports (corev1.Service.Spec svc) →
       intstr.Type_ (corev1.ServicePort.TargetPort p) = intstr.String_
       ∧ intstr.StrVal (corev1.ServicePort.TargetPort p) = corev1.ServicePort.Name p)
  ∧ corev1.ServiceSpec.Selector (corev1.Service.Spec svc)
    = {[ "external-id" := model.InvocationID job ]}.
Proof.
  unfold getService. destruct (LabelsFromJob i job) as [labels|e]; [|done].
  intros [= <-]. cbn [corev1.Service.Spec corev1.ServiceSpec.Ports corev1.ServiceSpec.Selector].
  split; [reflexivity|]. split; [|reflexivity].
  intros p Hp. apply elem_of_cons in Hp as [->|Hp]; [by split|].
  apply elem_of_cons in Hp as [->|Hp]; [by split|]. by apply elem_of_nil in Hp.
Qed.

End service_theorems.

(** ** The status publisher *)

Section publisher_theorems.
Context `{publisher.Net}.

(** Once the POST has been answered, [postStatus] returns nil whatever
    the status code of the answer: the error it wraps for a code outside
    200..399 is the nil error of the call that succeeded. *)
Lemma postStatus_after_response (j : publisher.JSLPublisher) (jobID msg : string)
    (jobState : publisher.JobState) (u : publisher.URL) (js : string)
    (req : publisher.Request) (response : publisher.Response) :
  publisher.url_Parse (publisher.statusURL j) = Ok u →
  publisher.status_Marshal
    {| publisher.Hostname := publisher.hostname; publisher.State := jobState;
       publisher.Message := msg |} = Ok js →
  publisher.NewRequestWithContext "POST"
    (publisher.URLString (publisher.withPath u (publisher.path_Join [jobID; "status"]))) js
    = Ok req →
  publisher.httpClient_Do (publisher.HeaderSet req "content-type" "application/json")
    = Ok response →
  publisher.postStatus j jobID msg jobState = None.
Proof.
  intros Hu Hjs Hreq Hdo. unfold publisher.postStatus.
  rewrite Hu. cbv zeta. rewrite Hjs, Hreq, Hdo.
  cbn [publisher.errOf errors.Wrapf]. by destruct (_ || _).
Qed.

(** A failure of the POST itself is reported. *)
Lemma postStatus_transport_error (j : publisher.JSLPublisher) (jobID msg : string)
    (jobState : publisher.JobState) (u : publisher.URL) (js : string)
    (req : publisher.Request) (e : error) :
  publisher.url_Parse (publisher.statusURL j) = Ok u →
  publisher.status_Marshal
    {| publisher.Hostname := publisher.hostname; publisher.State := jobState;
       publisher.Message := msg |} = Ok js →
  publisher.NewRequestWithContext "POST"
    (publisher.URLString (publisher.withPath u (publisher.path_Join [jobID; "status"]))) js
    = Ok req →
  publisher.httpClient_Do (publisher.HeaderSet req "content-type" "application/json")
    = Err e →
  ∃ msg', publisher.postStatus j jobID msg jobState = Some (Wrapped msg' e).
Proof.
  intros Hu Hjs Hreq Hdo. unfold publisher.postStatus.
  rewrite Hu. cbv zeta. rewrite Hjs, Hreq, Hdo.
  cbn [publisher.errOf errors.Wrapf]. by eexists.
Qed.

End publisher_theorems.

(** ** Computations that call collaborators *)

Lemma trace_bind {A B : Type} (m : M A) (k : A → M B) :
  trace (bind m k) =
  trace m ++ match value m with Some a => trace (k a) | None => [] end.
Proof.
  destruct m as [t [a|]]; unfold bind, trace, value; cbn [fst snd].
  - by destruct (k a).
  - by rewrite app_nil_r.
Qed.

Lemma value_bind {A B : Type} (m : M A) (k : A → M B) :
  value (bind m k) = match value m with Some a => value (k a) | None => None end.
Proof.
  destruct m as [t [a|]]; unfold bind, value; cbn [fst snd]; [|done].
  by destruct (k a).
Qed.

Lemma bind_call {A B : Type} (e : Event) (a : A) (k : A → M B) :
  bind (call e a) k = (e :: trace (k a), value (k a)).
Proof. unfold bind, call, trace, value. by destruct (k a). Qed.

Lemma bind_lift {A B : Type} (a : A) (k : A → M B) : bind (lift (Some a)) k = k a.
Proof. unfold bind, lift. by destruct (k a). Qed.

Lemma bind_ret {A B : Type} (a : A) (k : A → M B) : bind (ret a) k = k a.
Proof. unfold bind, ret. by destruct (k a). Qed.

Lemma bind_pair {A B : Type} (t : list Event) (a : A) (k : A → M B) :
  bind (t, Some a) k = (t ++ trace (k a), value (k a)).
Proof. unfold bind, trace, value. by destruct (k a). Qed.

(** ** The inspection handlers *)

Section handler_theorems.
Context `{Env}.

Lemma QueryParam_unset (c : Context_) :
  (Query c !! "user" = None ∨ ∃ rest, Query c !! "user" = Some ("" :: rest)) →
  QueryParam c "user" = "".
Proof. unfold QueryParam. by intros [->|[rest ->]]. Qed.

(** C9.  When the [user] query parameter is absent or empty, the
    description endpoint and the composite resources endpoint answer 400
    with the message that the user query parameter must be set, and they
    have called neither Apps nor Permissions nor the cluster: the list of
    their calls is empty. *)
Theorem user_parameter_required (i : Incluster) (c : Context_) :
  (Query c !! "user" = None ∨ ∃ rest, Query c !! "user" = Some ("" :: rest)) →
  DescribeAnalysisHandler i c
    = ([], Some (Failed (HTTPError 400 "user query parameter must be set")))
  ∧ FilterableResourcesHandler i c
    = ([], Some (Failed (HTTPError 400 "user query parameter must be set"))).
Proof.
  intros Hq. apply QueryParam_unset in Hq.
  unfold DescribeAnalysisHandler, FilterableResourcesHandler. rewrite Hq.
  split; reflexivity.
Qed.

(** Each of the five listings is one call to the cluster, with the
    selector built from the filter. *)
Lemma getFilteredDeployments_trace (i : Incluster) (filter : gmap string string) :
  trace (getFilteredDeployments i filter)
  = [ClusterList KDeployment (ViceNamespace i) (getListOptions filter [])].
Proof.
  unfold getFilteredDeployments, deploymentList. rewrite bind_call. cbn [trace fst].
  destruct (kubernetes.DeploymentsList _ _ _) as [depList|e]; [|done].
  unfold projectAll. by destruct (mapM deploymentInfo depList).
Qed.

Lemma getFilteredPods_trace (i : Incluster) (filter : gmap string string) :
  trace (getFilteredPods i filter)
  = [ClusterList KPod (ViceNamespace i) (getListOptions filter [])].
Proof.
  unfold getFilteredPods, podList. rewrite bind_call. cbn [trace fst].
  by destruct (kubernetes.PodsList _ _ _).
Qed.

Lemma getFilteredConfigMaps_trace (i : Incluster) (filter : gmap string string) :
  trace (getFilteredConfigMaps i filter)
  = [ClusterList KConfigMap (ViceNamespace i) (getListOptions filter [])].
Proof.
  unfold getFilteredConfigMaps, configmapsList. rewrite bind_call. cbn [trace fst].
  by destruct (kubernetes.ConfigMapsList _ _ _).
Qed.

Lemma getFilteredServices_trace (i : Incluster) (filter : gmap string string) :
  trace (getFilteredServices i filter)
  = [ClusterList KService (ViceNamespace i) (getListOptions filter [])].
Proof.
  unfold getFilteredServices, serviceList. rewrite bind_call. cbn [trace fst].
  by destruct (kubernetes.ServicesList _ _ _).
Qed.

Lemma getFilteredIngresses_trace (i : Incluster) (filter : gmap string string) :
  trace (getFilteredIngresses i filter)
  = [ClusterList KIngress (ViceNamespace i) (getListOptions filter [])].
Proof.
  unfold getFilteredIngresses, ingressList. rewrite bind_call. cbn [trace fst].
  destruct (kubernetes.IngressesList _ _ _) as [ingList|e]; [|done].
  unfold projectAll. by destruct (mapM ingressInfo ingList).
Qed.

(** The composite listing only lists: all its calls are [List] calls in
    the namespace of the analyses, with the selector of the filter. *)
Lemma doResourceListing_calls (i : Incluster) (filter : gmap string string) :
  Forall (λ e, ∃ kind, e = ClusterList kind (ViceNamespace i) (getListOptions filter []))
         (trace (doResourceListing i filter)).
Proof.
  unfold doResourceListing.
  rewrite trace_bind, getFilteredDeployments_trace. apply Forall_app. split; [by repeat econstructor|].
  destruct (value (getFilteredDeployments i filter)) as [[deployments|e]|]; try by constructor.
  rewrite trace_bind, getFilteredPods_trace. apply Forall_app. split; [by repeat econstructor|].
  destruct (value (getFilteredPods i filter)) as [[pods|e]|]; try by constructor.
  rewrite trace_bind, getFilteredConfigMaps_trace. apply Forall_app. split; [by repeat econstructor|].
  destruct (value (getFilteredConfigMaps i filter)) as [[cms|e]|]; try by constructor.
  rewrite trace_bind, getFilteredServices_trace. apply Forall_app. split; [by repeat econstructor|].
  destruct (value (getFilteredServices i filter)) as [[svcs|e]|]; try by constructor.
  rewrite trace_bind, getFilteredIngresses_trace. apply Forall_app. split; [by repeat econstructor|].
  destruct (value (getFilteredIngresses i filter)) as [[ingresses|e]|]; by constructor.
Qed.

Lemma doResourceListing_no_permissions (i : Incluster) (filter : gmap string string) :
  Forall (λ e, ¬ isPermissionsCall e ∧ ¬ isAppsCall e) (trace (doResourceListing i filter)).
Proof.
  eapply Forall_impl; [apply doResourceListing_calls|].
  intros e [kind ->]. split; intros [].
Qed.

(** The selector of a listing: one equality per label of the filter,
    over the implicit [app-type=interactive]. *)
Lemma selector_of_filter (customLabels : gmap string string) (r : labels.Requirement) :
  r ∈ metav1.LabelSelector (getListOptions customLabels [])
  ↔ ∃ k v, (customLabels ∪ {[ "app-type" := "interactive" ]}) !! k = Some v
           ∧ r = {| labels.key := k; labels.operator := labels.Equals;
                    labels.strValues := [v] |}.
Proof.
  unfold getListOptions, getListSelector, labels.Add, labels.AsSelector.
  cbn [foldl metav1.LabelSelector]. rewrite app_nil_r, list_elem_of_fmap. split.
  - intros ([k v] & -> & Hkv). apply elem_of_map_to_list in Hkv. by exists k, v.
  - intros (k & v & Hkv & ->). exists (k, v). split; [done|]. by apply elem_of_map_to_list.
Qed.

Lemma filterMap_lookup (c : Context_) (filter : gmap string string) (k v : string) :
  filterMap (Query c) = Some filter → QueryParam c k = v → v ≠ "" →
  filter !! k = Some v.
Proof.
  unfold filterMap, QueryParam. case_bool_decide; [|done]. intros [= <-].
  rewrite lookup_fmap. destruct (Query c !! k) as [[|v' vs]|]; cbn; congruence.
Qed.

(** C3, in the form that holds of the code.  On the composite resources
    endpoint, a request with a non-empty [user] parameter makes one call to
    Apps for the user-id of the username completed with the configured
    suffix; an unknown user is answered 404 without a call to the cluster;
    otherwise every listing uses a selector from which [user] has been
    removed and in which [user-id] equals the resolved id.  The five
    listings by kind do not treat [user] specially: their single call is the
    listing with the query parameters as they are, [user] included. *)
Theorem user_filter_of_the_listings (i : Incluster) (c : Context_) (user : string)
    (filter : gmap string string) :
  QueryParam c "user" = user → user ≠ "" →
  filterMap (Query c) = Some filter →
  (apps.GetUserID (apps_ i) (fixUsername i user) = Err ErrNoRows →
     FilterableResourcesHandler i c
     = ([AppsGetUserID (fixUsername i user)],
        Some (Failed (HTTPError 404
                (fmt.Sprintf "user %s not found" [fmt.S (fixUsername i user)])))))
  ∧ (∀ userID, apps.GetUserID (apps_ i) (fixUsername i user) = Ok userID →
       ∃ opts,
         opts = getListOptions (<["user-id" := userID]> (delete "user" filter)) []
         ∧ trace (FilterableResourcesHandler i c)
           = AppsGetUserID (fixUsername i user)
             :: trace (doResourceListing i (<["user-id" := userID]> (delete "user" filter)))
         ∧ Forall (λ e, ∃ kind, e = ClusterList kind (ViceNamespace i) opts)
             (trace (doResourceListing i (<["user-id" := userID]> (delete "user" filter))))
         ∧ (∀ r, r ∈ metav1.LabelSelector opts → labels.key r ≠ "user")
         ∧ {| labels.key := "user-id"; labels.operator := labels.Equals;
              labels.strValues := [userID] |} ∈ metav1.LabelSelector opts)
  ∧ trace (FilterableDeploymentsHandler i c)
    = [ClusterList KDeployment (ViceNamespace i) (getListOptions filter [])]
  ∧ trace (FilterablePodsHandler i c)
    = [ClusterList KPod (ViceNamespace i) (getListOptions filter [])]
  ∧ trace (FilterableConfigMapsHandler i c)
    = [ClusterList KConfigMap (ViceNamespace i) (getListOptions filter [])]
  ∧ trace (FilterableServicesHandler i c)
    = [ClusterList KService (ViceNamespace i) (getListOptions filter [])]
  ∧ trace (FilterableIngressesHandler i c)
    = [ClusterList KIngress (ViceNamespace i) (getListOptions filter [])]
  ∧ {| labels.key := "user"; labels.operator := labels.Equals;
       labels.strValues := [user] |} ∈ metav1.LabelSelector (getListOptions filter []).
Proof.
  intros Huser Hne Hfilter.
  assert (Hq : bool_decide (QueryParam c "user" = "") = false).
  { apply bool_decide_eq_false_2. congruence. }
  split; [|split].
  - intros Happs. unfold FilterableResourcesHandler. rewrite Hq, Huser, bind_call, Happs.
    reflexivity.
  - intros userID Happs. eexists. split; [reflexivity|]. split; [|split; [|split]].
    + unfold FilterableResourcesHandler. rewrite Hq, Huser, bind_call, Happs, Hfilter, bind_lift.
      cbn [trace fst]. f_equal. rewrite trace_bind.
      destruct (value (doResourceListing i _)) as [[listing|e]|]; cbn [trace ret fst];
        by rewrite app_nil_r.
    + apply doResourceListing_calls.
    + intros r Hr. apply selector_of_filter in Hr as (k & v & Hkv & ->). cbn.
      intros ->. apply lookup_union_Some_raw in Hkv as [Hkv|[_ Hkv]].
      * by rewrite lookup_insert_ne, lookup_delete_eq in Hkv.
      * by rewrite lookup_singleton_ne in Hkv.
    + apply selector_of_filter. exists "user-id", userID. split; [|done].
      apply lookup_union_Some_l, lookup_insert_eq.
  - assert (Hone : ∀ (A : Type) (m : M A) (k : A → M Reply) (e : Event),
              trace m = [e] → (∀ a, trace (k a) = []) → trace (bind m k) = [e]).
    { intros A m k e Hm Hk. rewrite trace_bind, Hm. destruct (value m); [|done].
      by rewrite Hk. }
    repeat split.
    + unfold FilterableDeploymentsHandler. rewrite Hfilter, bind_lift.
      apply Hone; [apply getFilteredDeployments_trace | by intros []].
    + unfold FilterablePodsHandler. rewrite Hfilter, bind_lift.
      apply Hone; [apply getFilteredPods_trace | by intros []].
    + unfold FilterableConfigMapsHandler. rewrite Hfilter, bind_lift.
      apply Hone; [apply getFilteredConfigMaps_trace | by intros []].
    + unfold FilterableServicesHandler. rewrite Hfilter, bind_lift.
      apply Hone; [apply getFilteredServices_trace | by intros []].
    + unfold FilterableIngressesHandler. rewrite Hfilter, bind_lift.
      apply Hone; [apply getFilteredIngresses_trace | by intros []].
    + apply selector_of_filter. exists "user", user. split; [|done].
      apply lookup_union_Some_l. by eapply filterMap_lookup.
Qed.

(** The composite resources endpoint never calls Permissions. *)
Lemma FilterableResourcesHandler_no_permissions (i : Incluster) (c : Context_) :
  Forall (λ e, ¬ isPermissionsCall e) (trace (FilterableResourcesHandler i c)).
Proof.
  unfold FilterableResourcesHandler. case_bool_decide; [by constructor|].
  rewrite bind_call. cbn [trace fst]. constructor; [by intros []|].
  destruct (apps.GetUserID _ _) as [userID|e].
  - destruct (filterMap (Query c)) as [filter|]; [|by constructor].
    rewrite bind_lift, trace_bind. apply Forall_app. split.
    + eapply Forall_impl; [apply doResourceListing_no_permissions|]. by intros e [? _].
    + destruct (value (doResourceListing i _)) as [[listing|e]|]; by constructor.
  - case_bool_decide; by constructor.
Qed.

(** C4, in the form that holds of the code.  On the description endpoint,
    once the user is known to Apps and the listing has been obtained: a
    listing without deployments is returned as it is, with no call to
    Permissions; with at least one deployment, the external-id of the first
    one is resolved to an analysis-id by Apps, Permissions is asked whether
    the requesting user may access it, and a denial is answered 403, an
    approval by the listing.  The composite resources endpoint, which
    restricts the listing to the user-id of the requesting user, never calls
    Permissions. *)
Theorem permission_gate_of_the_description (i : Incluster) (c : Context_)
    (user userID : string) (calls : list Event) (listing : ResourceInfo) :
  QueryParam c "user" = user → user ≠ "" →
  apps.GetUserID (apps_ i) (fixUsername i user) = Ok userID →
  doResourceListing i {[ "subdomain" := Param c "host" ]} = (calls, Some (Ok listing)) →
  (Deployments listing = [] →
     DescribeAnalysisHandler i c
     = (AppsGetUserID (fixUsername i user) :: calls,
        Some (JSON 200 (BodyListing listing)))
     ∧ Forall (λ e, ¬ isPermissionsCall e) (trace (DescribeAnalysisHandler i c)))
  ∧ (∀ deployment rest analysisID allowed,
       Deployments listing = deployment :: rest →
       apps.GetAnalysisIDByExternalID (apps_ i) (ExternalID (DeploymentMeta deployment))
         = Ok analysisID →
       IsAllowed (PermissionsURL i) user analysisID = Ok allowed →
       DescribeAnalysisHandler i c
       = (AppsGetUserID (fixUsername i user)
            :: calls
            ++ [AppsGetAnalysisIDByExternalID (ExternalID (DeploymentMeta deployment));
                PermissionsIsAllowed (PermissionsURL i) user analysisID],
          Some (if allowed then JSON 200 (BodyListing listing)
                else Failed (HTTPError 403
                       (fmt.Sprintf "user %s cannot access analysis %s"
                          [fmt.S user; fmt.S analysisID])))))
  ∧ Forall (λ e, ¬ isPermissionsCall e) (trace (FilterableResourcesHandler i c)).
Proof.
  intros Huser Hne Happs Hlisting.
  assert (Hq : bool_decide (QueryParam c "user" = "") = false).
  { apply bool_decide_eq_false_2. congruence. }
  split; [|split].
  - intros Hnone.
    assert (Heq : DescribeAnalysisHandler i c
                  = (AppsGetUserID (fixUsername i user) :: calls,
                     Some (JSON 200 (BodyListing listing)))).
    { unfold DescribeAnalysisHandler. rewrite Hq, Huser, bind_call, Happs, Hlisting.
      rewrite bind_pair, Hnone. cbn [trace value ret fst snd]. by rewrite app_nil_r. }
    split; [done|]. rewrite Heq. cbn [trace fst]. constructor; [by intros []|].
    pose proof (doResourceListing_no_permissions i {[ "subdomain" := Param c "host" ]}) as Hno.
    rewrite Hlisting in Hno. cbn [trace fst] in Hno.
    eapply Forall_impl; [exact Hno|]. by intros e [? _].
  - intros deployment rest analysisID allowed Hsome Hid Hallowed.
    unfold DescribeAnalysisHandler. rewrite Hq, Huser, bind_call, Happs, Hlisting.
    rewrite bind_pair, Hsome, bind_call, Hid, bind_call, Hallowed.
    by destruct allowed.
  - apply FilterableResourcesHandler_no_permissions.
Qed.

End handler_theorems.

(** ** The label reconciler *)

Section reconciler_theorems.
Context `{Env}.




Lemma populateSubdomain_other (l : gmap string string) (k : string) :
  k ≠ "subdomain" → populateSubdomain l !! k = l !! k.
Proof.
  intros Hk. unfold populateSubdomain.
  destruct (l !! "subdomain"); [done|]. destruct (l !! "external-id"); [|done].
  destruct (l !! "user-id"); [|done]. by rewrite lookup_insert_ne.
Qed.






(** The selector of the sweep. *)
Lemma sweep_selects (i : Incluster) (o : metav1.ObjectMeta) :
  validateLabelKey "subdomain" = true →
  selected (ViceNamespace i) (getListOptions ∅ ["subdomain"]) o = true ↔ swept i o.
Proof.
  intros Hvalid. unfold selected, swept, getListOptions, getListSelector, NewRequirement.
  cbn [foldl]. rewrite Hvalid. cbn [negb metav1.LabelSelector].
  rewrite (left_id ∅ (∪)). unfold labels.AsSelector, labels.Add.
  rewrite map_to_list_singleton.
  cbn [fmap list_fmap app fst snd labels.SelectorMatches forallb labels.Matches
       labels.operator labels.key labels.strValues].
  rewrite !andb_true_iff, !bool_decide_eq_true.
  destruct (metav1.Labels o !! "app-type") as [v|].
  - rewrite bool_decide_eq_true, list_elem_of_singleton. intuition congruence.
  - intuition congruence.
Qed.






End reconciler_theorems.

(** ** More on the volumes *)

Section more_volume_theorems.
Context `{Constants}.

Lemma walkInput_mapped (st st' : walkState) (x : model.StepInput) :
  walkInput st x = Ok st' → st'.2 = st.2 ++ mappedInputs [x].
Proof.
  intros Hw. unfold mappedInputs. destruct (decide (model.IRODSPath x = "")) as [Hx|Hx].
  - rewrite walkInput_empty_path in Hw by done. inversion Hw; subst st'.
    rewrite filter_cons_False by (unfold hasPath; tauto). by rewrite app_nil_r.
  - destruct st as [m ms].
    destruct (decide (recognised (model.InputType x))) as [Hty|Hty].
    + destruct (m !! mountPathOf (model.IRODSPath x)) as [old|] eqn:Hm.
      * by rewrite (walkInput_collision _ _ _ old) in Hw.
      * rewrite walkInput_fresh in Hw by done. inversion Hw; subst st'.
        by rewrite filter_cons_True by done.
    + by rewrite walkInput_unknown in Hw.
Qed.

Lemma mappedInputs_app (xs ys : list model.StepInput) :
  mappedInputs (xs ++ ys) = mappedInputs xs ++ mappedInputs ys.
Proof. unfold mappedInputs. by rewrite filter_app, fmap_app. Qed.

Lemma walk_mapped (xs : list model.StepInput) (st st' : walkState) :
  rangeResult xs walkInput st = Ok st' → st'.2 = st.2 ++ mappedInputs xs.
Proof.
  revert st. induction xs as [|x xs IH]; intros st Hw; cbn [rangeResult] in Hw.
  - inversion Hw. by rewrite app_nil_r.
  - destruct (walkInput st x) as [st1|e] eqn:H1; [|done].
    rewrite (IH _ Hw), (walkInput_mapped _ _ _ H1), <- app_assoc.
    by rewrite <- mappedInputs_app.
Qed.

(** A walk from the empty state. *)
Lemma walk_from_empty (i : Incluster) (job : model.Job)
    (mappings : list IRODSFSPathMapping) :
  getInputPathMappings i job = Ok mappings →
  ∃ m, rangeResult (allInputs (model.Steps job)) walkInput (∅, []) = Ok (m, mappings).
Proof.
  rewrite getInputPathMappings_walk.
  destruct (rangeResult _ walkInput _) as [[m ms]|e] eqn:Hw; [|done].
  intros [= <-]. by exists m.
Qed.


Lemma walkInput_inv (st st' : walkState) (x : model.StepInput) :
  walkInv st → walkInput st x = Ok st' → walkInv st'.
Proof.
  intros [Hnd Hdom] Hw. destruct (decide (model.IRODSPath x = "")) as [Hx|Hx].
  - rewrite walkInput_empty_path in Hw by done. by inversion Hw; subst st'.
  - destruct st as [m ms]. cbn [fst snd] in *.
    destruct (decide (recognised (model.InputType x))) as [Hty|Hty].
    + destruct (m !! mountPathOf (model.IRODSPath x)) as [old|] eqn:Hm.
      * by rewrite (walkInput_collision _ _ _ old) in Hw.
      * rewrite walkInput_fresh in Hw by done. inversion Hw; subst st'.
        unfold walkInv. cbn [fst snd]. rewrite fmap_app. cbn [fmap list_fmap inputMapping MappingPath].
        split.
        -- apply NoDup_app. split; [done|]. split; [|apply NoDup_singleton].
           intros k Hk Hin. apply list_elem_of_singleton in Hin as ->.
           apply Hdom in Hk. rewrite Hm in Hk. by destruct Hk.
        -- intros k. rewrite elem_of_app, list_elem_of_singleton, <- Hdom.
           destruct (decide (k = mountPathOf (model.IRODSPath x))) as [->|Hne].
           ++ rewrite lookup_insert_eq. split; [by right | by eexists].
           ++ rewrite lookup_insert_ne by done. tauto.
    + by rewrite walkInput_unknown in Hw.
Qed.

Lemma walk_inv (xs : list model.StepInput) (st st' : walkState) :
  walkInv st → rangeResult xs walkInput st = Ok st' → walkInv st'.
Proof.
  revert st. induction xs as [|x xs IH]; intros st Hinv Hw; cbn [rangeResult] in Hw.
  - by inversion Hw; subst st'.
  - destruct (walkInput st x) as [st1|e] eqn:H1; [|done].
    eapply IH; [|done]. by eapply walkInput_inv.
Qed.

Lemma walkInv_empty : walkInv (∅, []).
Proof.
  split; [constructor|]. intros k. cbn. rewrite lookup_empty. split.
  - by intros [? ?].
  - intros Hin. by apply elem_of_nil in Hin.
Qed.

(** X2.  On success no two mappings have the same mount path. *)
Theorem input_mappings_have_distinct_mount_paths (i : Incluster) (job : model.Job)
    (mappings : list IRODSFSPathMapping) :
  getInputPathMappings i job = Ok mappings → NoDup (MappingPath <$> mappings).
Proof.
  intros Hok. apply walk_from_empty in Hok as [m Hw].
  by destruct (walk_inv _ _ _ walkInv_empty Hw) as [Hnd _].
Qed.




(** X4.  In the manifest of the data volume, the read-only mappings are the
    input mappings and the only mapping that creates its directory is the
    output mapping. *)
Theorem manifest_access (i : Incluster) (job : model.Job)
    (inputPathMappings : list IRODSFSPathMapping) (m : IRODSFSPathMapping) :
  getInputPathMappings i job = Ok inputPathMappings →
  m ∈ dataPathMappings i job inputPathMappings →
  (ReadOnly m = true ↔ m ∈ inputPathMappings)
  ∧ (CreateDir m = true ↔ m = getOutputPathMapping i job).
Proof.
  intros Hok Hin. apply walk_from_empty in Hok as [m0 Hok]. apply walk_mapped in Hok.
  cbn [fst snd app] in Hok. subst inputPathMappings.
  assert (Hinput : ∀ m', m' ∈ mappedInputs (allInputs (model.Steps job)) →
            ReadOnly m' = true ∧ CreateDir m' = false).
  { intros m' Hm'. unfold mappedInputs in Hm'.
    apply list_elem_of_fmap in Hm' as (x & -> & _). done. }
  assert (Hcases : m ∈ mappedInputs (allInputs (model.Steps job))
                   ∨ m = getOutputPathMapping i job ∨ m = getHomePathMapping i job
                   ∨ m = getSharedPathMapping i).
  { unfold dataPathMappings in Hin. cbn [app] in Hin. case_bool_decide;
      repeat (apply elem_of_app in Hin as [Hin|Hin]);
      try (apply list_elem_of_singleton in Hin); auto. }
  destruct Hcases as [Hm | [-> | [-> | ->]]].
  - destruct (Hinput _ Hm) as [Hro Hcd]. split; [done|]. rewrite Hcd. split; [done|].
    intros ->. by destruct (Hinput _ Hm).
  - split; [|done]. split; [done|]. intros Hm. by destruct (Hinput _ Hm).
  - split; [split; [done|]|split; [done|]].
    + intros Hm. by destruct (Hinput _ Hm).
    + intros Heq. by apply (f_equal CreateDir) in Heq.
  - split; [split; [done|]|split; [done|]].
    + intros Hm. by destruct (Hinput _ Hm).
    + intros Heq. by apply (f_equal CreateDir) in Heq.
Qed.

End more_volume_theorems.

(** ** The volume, its claim, the pod volume and its mount *)

Section volume_binding_theorems.
Context `{Constants} `{Env}.

(** X5.  With the CSI driver in use, a job without steps makes
    [getPersistentVolumes] panic on [job.Steps[0]], once the encoding of
    the manifest and the labels have been obtained. *)
Theorem persistent_volume_needs_a_step (i : Incluster) (job : model.Job)
    (json : string) (labels : gmap string string) :
  UseCSIDriver i = true →
  model.Steps job = [] →
  json_Marshal (dataPathMappings i job []) = Ok json →
  LabelsFromJob i job = Ok labels →
  getPersistentVolumes i job = None.
Proof.
  intros Hcsi Hsteps Hjson Hlabels. unfold getPersistentVolumes, getInputPathMappings,
    getCSIDataVolumeLabels.
  rewrite Hcsi, Hsteps. cbn [rangeResult]. by rewrite Hjson, Hlabels.
Qed.

(** X6.  With the CSI driver in use, [getPersistentVolumes] returns unchanged,
    and without a volume, the error of the input mappings, else the error
    of the encoding, else the error of the labels; the labels' error comes
    before the panic of a job without steps. *)
Theorem persistent_volume_errors (i : Incluster) (job : model.Job) (err : error) :
  UseCSIDriver i = true →
  (getInputPathMappings i job = Err err → getPersistentVolumes i job = Some (Err err))
  ∧ (∀ inputPathMappings,
       getInputPathMappings i job = Ok inputPathMappings →
       json_Marshal (dataPathMappings i job inputPathMappings) = Err err →
       getPersistentVolumes i job = Some (Err err))
  ∧ (∀ inputPathMappings json,
       getInputPathMappings i job = Ok inputPathMappings →
       json_Marshal (dataPathMappings i job inputPathMappings) = Ok json →
       LabelsFromJob i job = Err err →
       getPersistentVolumes i job = Some (Err err)).
Proof.
  intros Hcsi. unfold getPersistentVolumes, getCSIDataVolumeLabels. rewrite Hcsi.
  split; [|split].
  - by intros ->.
  - intros ms -> Hjson. by rewrite Hjson.
  - intros ms json -> Hjson Hlabels. by rewrite Hjson, Hlabels.
Qed.

(** X7.  The objects synthesized for the data volume are bound by name: the
    claim names the volume and asks for the storage class, the access
    modes and the capacity of the volume; the pod volume names the claim;
    the mount names the pod volume and mounts it at the local mount path
    of the driver. *)
Theorem data_volume_is_bound_by_name (i : Incluster) (job : model.Job)
    (pvs : list corev1.PersistentVolume.t)
    (claims : list corev1.PersistentVolumeClaim.t) (volumes : list corev1.Volume.t) :
  UseCSIDriver i = true →
  getPersistentVolumes i job = Some (Ok pvs) →
  getPersistentVolumeClaims i job = Ok claims →
  getPersistentVolumeSources i job = Ok volumes →
  ∃ pv claim volume mount,
    pvs = [pv] ∧ claims = [claim] ∧ volumes = [volume]
    ∧ getPersistentVolumeMounts i job = [mount]
    ∧ corev1.PersistentVolumeClaimSpec.VolumeName (corev1.PersistentVolumeClaim.Spec claim)
      = metav1.Name (corev1.PersistentVolume.ObjectMeta pv)
    ∧ corev1.PersistentVolumeClaimSpec.StorageClassName (corev1.PersistentVolumeClaim.Spec claim)
      = Some (corev1.PersistentVolumeSpec.StorageClassName (corev1.PersistentVolume.Spec pv))
    ∧ corev1.PersistentVolumeClaimSpec.AccessModes (corev1.PersistentVolumeClaim.Spec claim)
      = corev1.PersistentVolumeSpec.AccessModes (corev1.PersistentVolume.Spec pv)
    ∧ corev1.PersistentVolumeClaimSpec.Requests (corev1.PersistentVolumeClaim.Spec claim)
      = corev1.PersistentVolumeSpec.Capacity (corev1.PersistentVolume.Spec pv)
    ∧ corev1.Volume.PersistentVolumeClaim volume
      = Some {| corev1.PersistentVolumeClaimVolumeSource.ClaimName :=
                  metav1.Name (corev1.PersistentVolumeClaim.ObjectMeta claim) |}
    ∧ corev1.VolumeMount.Name mount = corev1.Volume.Name volume
    ∧ corev1.VolumeMount.MountPath mount = CSIDriverLocalMountPath.
Proof.
  intros Hcsi. unfold getPersistentVolumes, getPersistentVolumeClaims,
    getPersistentVolumeSources, getPersistentVolumeMounts, getCSIDataVolumeLabels.
  rewrite Hcsi.
  destruct (getInputPathMappings i job) as [inputPathMappings|e]; [|done].
  destruct (json_Marshal _) as [json|e]; [|done].
  destruct (LabelsFromJob i job) as [labels|e]; [|done].
  destruct (model.Steps job !! 0%nat) as [step0|]; [|done].
  cbn [mbind option_bind app]. intros [= <-] [= <-] [= <-].
  eexists _, _, _, _. repeat (split; [reflexivity|]). reflexivity.
Qed.

(** X8.  The labels of the volume are the labels of its claim, which are the
    labels of the job, with the label [volume-name] set to the name of
    the volume. *)
Theorem data_volume_labels (i : Incluster) (job : model.Job)
    (pv : corev1.PersistentVolume.t) (claim : corev1.PersistentVolumeClaim.t) :
  getPersistentVolumes i job = Some (Ok [pv]) →
  getPersistentVolumeClaims i job = Ok [claim] →
  LabelsFromJob i job
  = Ok (metav1.Labels (corev1.PersistentVolumeClaim.ObjectMeta claim))
  ∧ metav1.Labels (corev1.PersistentVolume.ObjectMeta pv)
    = <["volume-name" := metav1.Name (corev1.PersistentVolume.ObjectMeta pv)]>
        (metav1.Labels (corev1.PersistentVolumeClaim.ObjectMeta claim)).
Proof.
  unfold getPersistentVolumes, getPersistentVolumeClaims, getCSIDataVolumeLabels.
  destruct (UseCSIDriver i); [|done].
  destruct (getInputPathMappings i job) as [inputPathMappings|e]; [|done].
  destruct (json_Marshal _) as [json|e]; [|done].
  destruct (LabelsFromJob i job) as [labels|e]; [|done].
  destruct (model.Steps job !! 0%nat) as [step0|]; [|done].
  cbn [mbind option_bind app]. by intros [= <-] [= <-].
Qed.

End volume_binding_theorems.

(** ** Names *)

Lemma append_empty_r (s : string) : s +:+ "" = s.
Proof.
  induction s as [|c s IH]; [done|].
  change (String c (s +:+ "") = String c s). by f_equal.
Qed.

Lemma append_inj_l (p x y : string) : p +:+ x = p +:+ y → x = y.
Proof.
  induction p as [|c p IH]; [done|].
  change (String c (p +:+ x) = String c (p +:+ y) → x = y).
  intros [= Heq]. by apply IH.
Qed.

Lemma Sprintf_two (a b : string) :
  fmt.Sprintf "%s-%s" [fmt.S a; fmt.S b] = a +:+ "-" +:+ b.
Proof.
  transitivity (a +:+ "-" +:+ (b +:+ "")); [vm_compute; reflexivity|].
  by rewrite append_empty_r.
Qed.

Lemma Sprintf_handle (a b : string) :
  fmt.Sprintf "%s-handle-%s" [fmt.S a; fmt.S b] = a +:+ "-handle-" +:+ b.
Proof.
  transitivity (a +:+ "-handle-" +:+ (b +:+ "")); [vm_compute; reflexivity|].
  by rewrite append_empty_r.
Qed.

Section name_theorems.
Context `{Constants} `{Env}.

(** X9.  The names derived from a job identify its analysis: two jobs whose
    data volumes, volume handles, claims or services have the same name
    have the same [InvocationID]. *)
Theorem names_identify_the_analysis (i1 i2 : Incluster) (job1 job2 : model.Job) :
  (getCSIDataVolumeName i1 job1 = getCSIDataVolumeName i2 job2 →
     model.InvocationID job1 = model.InvocationID job2)
  ∧ (getCSIDataVolumeHandle i1 job1 = getCSIDataVolumeHandle i2 job2 →
       model.InvocationID job1 = model.InvocationID job2)
  ∧ (getCSIDataVolumeClaimName i1 job1 = getCSIDataVolumeClaimName i2 job2 →
       model.InvocationID job1 = model.InvocationID job2)
  ∧ (∀ svc1 svc2,
       getService i1 job1 = Ok svc1 → getService i2 job2 = Ok svc2 →
       metav1.Name (corev1.Service.ObjectMeta svc1)
       = metav1.Name (corev1.Service.ObjectMeta svc2) →
       model.InvocationID job1 = model.InvocationID job2).
Proof.
  unfold getCSIDataVolumeName, getCSIDataVolumeHandle, getCSIDataVolumeClaimName.
  rewrite !Sprintf_two, !Sprintf_handle. repeat split.
  - intros Heq. apply append_inj_l in Heq. by apply (append_inj_l "-").
  - intros Heq. apply append_inj_l in Heq. by apply (append_inj_l "-handle-").
  - intros Heq. apply append_inj_l in Heq. by apply (append_inj_l "-").
  - intros svc1 svc2. unfold getService.
    destruct (LabelsFromJob i1 job1); [|done]. destruct (LabelsFromJob i2 job2); [|done].
    intros [= <-] [= <-]. cbn [corev1.Service.ObjectMeta metav1.Name].
    rewrite !append_empty_r. by intros [= Heq].
Qed.

End name_theorems.

(** ** Selectors *)

Section selector_theorems.
Context `{Env}.



End selector_theorems.

(** ** The projections *)

Lemma analysisContainer_readable (vars : analysisVars) (container : corev1.Container.t) :
  is_Some (analysisContainer vars container) ↔ readable container.
Proof.
  unfold analysisContainer, readable. case_bool_decide as Hname.
  - destruct (corev1.Container.Ports container) as [|port0 ports].
    { split; [by intros [? ?] | intros Hr; by destruct (Hr Hname) as (? & ? & ? & ? & ? & _)]. }
    destruct (corev1.Container.SecurityContext_ container) as [[[runAsUser|] [runAsGroup|]]|];
      cbn; (split; [intros [? ?]; try done; by eexists _, _, _, _
                   | intros Hr; destruct (Hr Hname) as (? & ? & ? & ? & ? & ?);
                     try done; by eexists]).
  - split; [done | by eexists].
Qed.

Lemma rangeContainers_app (xs ys : list corev1.Container.t) (vars : analysisVars) :
  rangeContainers (xs ++ ys) vars = rangeContainers xs vars ≫= rangeContainers ys.
Proof.
  revert vars. induction xs as [|x xs IH]; intros vars; [done|].
  cbn [app rangeContainers]. destruct (analysisContainer vars x); [apply IH | done].
Qed.

Lemma rangeContainers_readable (containers : list corev1.Container.t) (vars : analysisVars) :
  is_Some (rangeContainers containers vars) ↔ Forall readable containers.
Proof.
  revert vars. induction containers as [|c cs IH]; intros vars; cbn [rangeContainers].
  - split; [constructor | by eexists].
  - rewrite Forall_cons, <- (analysisContainer_readable vars c).
    destruct (analysisContainer vars c) as [vars'|]; cbn.
    + rewrite IH. split; [intros Hcs; split; [by eexists | done] | by intros [_ ?]].
    + split; [by intros [? ?] | by intros [[? ?] _]].
Qed.

(** X11.  [deploymentInfo] panics exactly when a container named [analysis]
    declares no port, or has no security context, or no user or no group
    in it; containers with another name are not looked at. *)
Theorem deploymentInfo_returns_iff (deployment : appsv1.Deployment.t) :
  is_Some (deploymentInfo deployment)
  ↔ Forall readable (appsv1.Deployment.Containers deployment).
Proof.
  unfold deploymentInfo. rewrite <- (rangeContainers_readable _
    {| user := 0; group := 0; image := ""; port := 0; command := [] |}).
  destruct (rangeContainers _ _); cbn; split; try done; by eexists.
Qed.

Lemma lastAnalysis_snoc (cs : list corev1.Container.t) (c : corev1.Container.t) :
  lastAnalysis (cs ++ [c])
  = if bool_decide (corev1.Container.Name c = "analysis") then Some c else lastAnalysis cs.
Proof.
  unfold lastAnalysis. rewrite filter_app. case_bool_decide as Hname.
  - rewrite filter_cons_True by done. by rewrite filter_nil, last_snoc.
  - rewrite filter_cons_False by done. by rewrite filter_nil, app_nil_r.
Qed.

Lemma rangeContainers_last (containers : list corev1.Container.t) (vars vars' : analysisVars) :
  rangeContainers containers vars = Some vars' →
  match lastAnalysis containers with
  | None => vars' = vars
  | Some c =>
      image vars' = corev1.Container.Image c
      ∧ command vars' = corev1.Container.Command c
      ∧ corev1.Container.Ports c !! 0%nat = Some (port vars')
      ∧ ∃ securityContext,
          corev1.Container.SecurityContext_ c = Some securityContext
          ∧ corev1.SecurityContext.RunAsUser securityContext = Some (user vars')
          ∧ corev1.SecurityContext.RunAsGroup securityContext = Some (group vars')
  end.
Proof.
  revert vars'. induction containers as [|c cs IH] using rev_ind; intros vars'.
  - by intros [= <-].
  - rewrite rangeContainers_app, lastAnalysis_snoc.
    destruct (rangeContainers cs vars) as [vars1|] eqn:Hcs; [|done].
    cbn [mbind option_bind rangeContainers]. unfold analysisContainer.
    case_bool_decide as Hname.
    + destruct (corev1.Container.Ports c !! 0%nat) as [port0|] eqn:Hport; cbn; [|done].
      destruct (corev1.Container.SecurityContext_ c) as [securityContext|]; cbn; [|done].
      destruct (corev1.SecurityContext.RunAsUser securityContext) as [runAsUser|] eqn:Hu;
        cbn; [|done].
      destruct (corev1.SecurityContext.RunAsGroup securityContext) as [runAsGroup|] eqn:Hg;
        cbn; [|done].
      intros [= <-]. cbn. repeat split; try done. by eexists.
    + cbn. intros [= <-]. by apply IH.
Qed.

(** X12.  What [deploymentInfo] reports when it returns: the image, command,
    first port, user and group of the last container named [analysis],
    and zero values when no container has that name. *)
Theorem deploymentInfo_reports_last_analysis (deployment : appsv1.Deployment.t)
    (info : DeploymentInfo) :
  deploymentInfo deployment = Some info →
  DeploymentMeta info = metaInfo (appsv1.Deployment.ObjectMeta deployment)
  ∧ match lastAnalysis (appsv1.Deployment.Containers deployment) with
    | None =>
        Image info = "" ∧ Command info = [] ∧ Port info = 0%Z
        ∧ User info = 0%Z ∧ Group info = 0%Z
    | Some c =>
        Image info = corev1.Container.Image c
        ∧ Command info = corev1.Container.Command c
        ∧ corev1.Container.Ports c !! 0%nat = Some (Port info)
        ∧ ∃ securityContext,
            corev1.Container.SecurityContext_ c = Some securityContext
            ∧ corev1.SecurityContext.RunAsUser securityContext = Some (User info)
            ∧ corev1.SecurityContext.RunAsGroup securityContext = Some (Group info)
    end.
Proof.
  unfold deploymentInfo.
  destruct (rangeContainers _ _) as [vars|] eqn:Hvars; [|done].
  cbn. intros [= <-]. split; [done|].
  apply rangeContainers_last in Hvars.
  destruct (lastAnalysis _) as [c|]; cbn; [done|]. by subst vars.
Qed.

(** ** More on the listings *)

Section listing_theorems.
Context `{Constants} `{Env}.

(** X13.  The listing of a service that [getService] has synthesized shows two
    TCP ports, the file-transfers port and then the proxy port, each with
    its name as the name of the target port and 0 as the number of the
    target port and of the node port, and the metadata made of the labels
    of the job. *)
Theorem serviceInfo_of_getService (i : Incluster) (job : model.Job)
    (svc : corev1.Service.t) :
  getService i job = Ok svc →
  Ports (serviceInfo svc)
  = [ {| PortName := FileTransfersPortName; NodePort := 0; TargetPort := 0;
         TargetPortName := FileTransfersPortName; ServicePortNumber := FileTransfersPort;
         Protocol := "TCP" |};
      {| PortName := VICEProxyPortName; NodePort := 0; TargetPort := 0;
         TargetPortName := VICEProxyPortName; ServicePortNumber := VICEProxyServicePort;
         Protocol := "TCP" |} ]
  ∧ LabelsFromJob i job = Ok (metav1.Labels (corev1.Service.ObjectMeta svc))
  ∧ ServiceMeta (serviceInfo svc) = metaInfo (corev1.Service.ObjectMeta svc).
Proof.
  unfold getService. destruct (LabelsFromJob i job) as [labels|e]; [|done].
  by intros [= <-].
Qed.

End listing_theorems.

Section more_handler_theorems.
Context `{Env}.

Lemma getFilteredDeployments_eq (i : Incluster) (filter : gmap string string) :
  getFilteredDeployments i filter
  = ([ClusterList KDeployment (ViceNamespace i) (getListOptions filter [])],
     match kubernetes.DeploymentsList (clientset i) (ViceNamespace i)
             (getListOptions filter []) with
     | Err err => Some (Err err)
     | Ok depList => Ok <$> mapM deploymentInfo depList
     end).
Proof.
  unfold getFilteredDeployments, deploymentList. rewrite bind_call.
  destruct (kubernetes.DeploymentsList _ _ _) as [depList|e]; [|done].
  unfold projectAll, lift. by destruct (mapM deploymentInfo depList).
Qed.

Lemma getFilteredPods_eq (i : Incluster) (filter : gmap string string) :
  getFilteredPods i filter
  = ([ClusterList KPod (ViceNamespace i) (getListOptions filter [])],
     match kubernetes.PodsList (clientset i) (ViceNamespace i) (getListOptions filter []) with
     | Err err => Some (Err err)
     | Ok podList => Some (Ok (podInfo <$> podList))
     end).
Proof.
  unfold getFilteredPods, podList. rewrite bind_call.
  by destruct (kubernetes.PodsList _ _ _).
Qed.

Lemma getFilteredConfigMaps_eq (i : Incluster) (filter : gmap string string) :
  getFilteredConfigMaps i filter
  = ([ClusterList KConfigMap (ViceNamespace i) (getListOptions filter [])],
     match kubernetes.ConfigMapsList (clientset i) (ViceNamespace i)
             (getListOptions filter []) with
     | Err err => Some (Err err)
     | Ok cmList => Some (Ok (configMapInfo <$> cmList))
     end).
Proof.
  unfold getFilteredConfigMaps, configmapsList. rewrite bind_call.
  by destruct (kubernetes.ConfigMapsList _ _ _).
Qed.

Lemma getFilteredServices_eq (i : Incluster) (filter : gmap string string) :
  getFilteredServices i filter
  = ([ClusterList KService (ViceNamespace i) (getListOptions filter [])],
     match kubernetes.ServicesList (clientset i) (ViceNamespace i)
             (getListOptions filter []) with
     | Err err => Some (Err err)
     | Ok svcList => Some (Ok (serviceInfo <$> svcList))
     end).
Proof.
  unfold getFilteredServices, serviceList. rewrite bind_call.
  by destruct (kubernetes.ServicesList _ _ _).
Qed.

Lemma getFilteredIngresses_eq (i : Incluster) (filter : gmap string string) :
  getFilteredIngresses i filter
  = ([ClusterList KIngress (ViceNamespace i) (getListOptions filter [])],
     match kubernetes.IngressesList (clientset i) (ViceNamespace i)
             (getListOptions filter []) with
     | Err err => Some (Err err)
     | Ok ingList => Ok <$> mapM ingressInfo ingList
     end).
Proof.
  unfold getFilteredIngresses, ingressList. rewrite bind_call.
  destruct (kubernetes.IngressesList _ _ _) as [ingList|e]; [|done].
  unfold projectAll, lift. by destruct (mapM ingressInfo ingList).
Qed.

(** X14.  The composite listing asks for the five kinds in the order
    deployments, pods, config maps, services, ingresses, with one
    selector, and stops at the first listing that fails: the calls made
    are the first calls of that sequence, all five when a listing is
    returned, and a returned error is the answer to the last call made. *)
Theorem doResourceListing_order (i : Incluster) (filter : gmap string string) :
  trace (doResourceListing i filter) `prefix_of` listCalls i filter
  ∧ (∀ listing, value (doResourceListing i filter) = Some (Ok listing) →
       trace (doResourceListing i filter) = listCalls i filter)
  ∧ (∀ err, value (doResourceListing i filter) = Some (Err err) →
       ∃ kind,
         last (trace (doResourceListing i filter))
         = Some (ClusterList kind (ViceNamespace i) (getListOptions filter []))
         ∧ listFails i kind (getListOptions filter []) err).
Proof.
  unfold doResourceListing, listCalls, listFails.
  rewrite getFilteredDeployments_eq, getFilteredPods_eq, getFilteredConfigMaps_eq,
    getFilteredServices_eq, getFilteredIngresses_eq.
  destruct (kubernetes.DeploymentsList _ _ _) as [depList|e1] eqn:H1.
  2:{ rewrite bind_pair. cbn [trace value fst snd ret app].
      split; [by eexists|]. split; [done|]. intros err [= <-]. by exists KDeployment. }
  destruct (mapM deploymentInfo depList) as [deployments|]; cbn [fmap option_fmap option_map].
  2:{ cbn [bind trace value fst snd]. split; [by eexists|]. done. }
  rewrite bind_pair.
  destruct (kubernetes.PodsList _ _ _) as [podList|e2] eqn:H2.
  2:{ rewrite bind_pair. cbn [trace value fst snd ret app].
      split; [by eexists|]. split; [done|]. intros err [= <-]. by exists KPod. }
  rewrite bind_pair.
  destruct (kubernetes.ConfigMapsList _ _ _) as [cmList|e3] eqn:H3.
  2:{ rewrite bind_pair. cbn [trace value fst snd ret app].
      split; [by eexists|]. split; [done|]. intros err [= <-]. by exists KConfigMap. }
  rewrite bind_pair.
  destruct (kubernetes.ServicesList _ _ _) as [svcList|e4] eqn:H4.
  2:{ rewrite bind_pair. cbn [trace value fst snd ret app].
      split; [by eexists|]. split; [done|]. intros err [= <-]. by exists KService. }
  rewrite bind_pair.
  destruct (kubernetes.IngressesList _ _ _) as [ingList|e5] eqn:H5.
  2:{ rewrite bind_pair. cbn [trace value fst snd ret app].
      split; [by eexists|]. split; [done|]. intros err [= <-]. by exists KIngress. }
  destruct (mapM ingressInfo ingList) as [ingresses|]; cbn [fmap option_fmap option_map].
  - rewrite bind_pair. cbn [trace value fst snd ret app]. split; [by eexists|]. done.
  - cbn [bind trace value fst snd app]. split; [by eexists|]. done.
Qed.

(** X15.  The two admin endpoints call the cluster only, never Apps or
    Permissions, and need no [user] parameter: they answer 200 with the
    listing, or 500 with the message of the listing's error. *)
Theorem admin_endpoints_only_list (i : Incluster) (c : Context_) :
  Forall isListCall (trace (AdminDescribeAnalysisHandler i c))
  ∧ Forall isListCall (trace (AdminFilterableResourcesHandler i c))
  ∧ value (AdminDescribeAnalysisHandler i c)
    = match value (doResourceListing i {[ "subdomain" := Param c "host" ]}) with
      | Some (Ok listing) => Some (JSON 200 (BodyListing listing))
      | Some (Err err) => Some (Failed (HTTPError 500 (Error err)))
      | None => None
      end
  ∧ (∀ filter, filterMap (Query c) = Some filter →
       value (AdminFilterableResourcesHandler i c)
       = match value (doResourceListing i filter) with
         | Some (Ok listing) => Some (JSON 200 (BodyListing listing))
         | Some (Err err) => Some (Failed (HTTPError 500 (Error err)))
         | None => None
         end).
Proof.
  assert (Hlist : ∀ filter, Forall isListCall (trace (doResourceListing i filter))).
  { intros filter. eapply Forall_impl; [apply doResourceListing_calls|]. by intros e [kind ->]. }
  unfold AdminDescribeAnalysisHandler, AdminFilterableResourcesHandler.
  split; [|split; [|split]].
  - rewrite trace_bind. apply Forall_app. split; [apply Hlist|].
    destruct (value (doResourceListing i _)) as [[listing|e]|]; by constructor.
  - destruct (filterMap (Query c)) as [filter|]; [|by constructor].
    rewrite bind_lift, trace_bind. apply Forall_app. split; [apply Hlist|].
    destruct (value (doResourceListing i _)) as [[listing|e]|]; by constructor.
  - rewrite value_bind. by destruct (value (doResourceListing i _)) as [[listing|e]|].
  - intros filter ->. rewrite bind_lift, value_bind.
    by destruct (value (doResourceListing i _)) as [[listing|e]|].
Qed.

(** X16.  When Apps cannot resolve the user, the description endpoint and the
    composite resources endpoint stop after that one call, without a call
    to the cluster or to Permissions: an unknown user is answered 404 by
    both; another error of Apps is returned as it is by the description
    endpoint and as a 500 with its message by the resources endpoint. *)
Theorem unresolved_user_stops_the_request (i : Incluster) (c : Context_)
    (user : string) (err : error) :
  QueryParam c "user" = user → user ≠ "" →
  apps.GetUserID (apps_ i) (fixUsername i user) = Err err →
  DescribeAnalysisHandler i c
  = ([AppsGetUserID (fixUsername i user)],
     Some (Failed (if bool_decide (err = ErrNoRows)
                   then HTTPError 404
                          (fmt.Sprintf "user %s not found" [fmt.S (fixUsername i user)])
                   else err)))
  ∧ FilterableResourcesHandler i c
    = ([AppsGetUserID (fixUsername i user)],
       Some (Failed (if bool_decide (err = ErrNoRows)
                     then HTTPError 404
                            (fmt.Sprintf "user %s not found" [fmt.S (fixUsername i user)])
                     else HTTPError 500 (Error err)))).
Proof.
  intros Huser Hne Happs.
  assert (Hq : bool_decide (QueryParam c "user" = "") = false).
  { apply bool_decide_eq_false_2. congruence. }
  unfold DescribeAnalysisHandler, FilterableResourcesHandler. cbv zeta.
  rewrite Hq, Huser, !bind_call, Happs.
  destruct (bool_decide (err = ErrNoRows)); split; reflexivity.
Qed.

End more_handler_theorems.

(** ** The listings in front of a cluster *)

Section cluster_listing_theorems.
Context `{Env}.


Lemma selector_requires_custom_labels (customLabels : gmap string string)
    (missingLabels : list string) (ls : gmap string string) (k v : string) :
  labels.SelectorMatches
    (metav1.LabelSelector (getListOptions customLabels missingLabels)) ls = true →
  customLabels !! k = Some v → ls !! k = Some v.
Proof.
  unfold labels.SelectorMatches, getListOptions, getListSelector, labels.Add, labels.AsSelector.
  cbn [metav1.LabelSelector]. rewrite forallb_forall. intros Hall Hkv.
  specialize (Hall {| labels.key := k; labels.operator := labels.Equals;
                      labels.strValues := [v] |}).
  unfold labels.Matches in Hall. cbn in Hall. destruct (ls !! k) as [w|].
  - rewrite bool_decide_eq_true, list_elem_of_singleton in Hall. f_equal. apply Hall.
    apply list_elem_of_In, elem_of_app. left. apply list_elem_of_fmap.
    exists (k, v). split; [done|]. apply elem_of_map_to_list. by apply lookup_union_Some_l.
  - discriminate Hall.
    apply list_elem_of_In, elem_of_app. left. apply list_elem_of_fmap.
    exists (k, v). split; [done|]. apply elem_of_map_to_list. by apply lookup_union_Some_l.
Qed.

Lemma matching_user_id {A : Type} (meta : A → metav1.ObjectMeta) (i : Incluster)
    (filter : gmap string string) (userID : string) (items : list A) :
  Forall (λ x, UserID (metaInfo (meta x)) = userID)
    (matching meta i (<["user-id" := userID]> filter) items).
Proof.
  apply Forall_forall. intros x Hx. unfold matching in Hx.
  apply list_elem_of_filter in Hx as [Hsel _].
  unfold selected in Hsel. apply andb_true_iff in Hsel as [_ Hsel].
  unfold metaInfo, index. cbn [UserID].
  by rewrite (selector_requires_custom_labels _ _ _ "user-id" userID Hsel)
    by apply lookup_insert_eq.
Qed.

Lemma mapM_Forall {A B : Type} (f : A → option B) (P : A → Prop) (Q : B → Prop)
    (l : list A) (k : list B) :
  (∀ x y, f x = Some y → P x → Q y) →
  mapM f l = Some k → Forall P l → Forall Q k.
Proof.
  intros Hf Hk Hl. apply mapM_Some_1 in Hk.
  eapply Forall2_Forall_r; [exact Hk|].
  eapply Forall_impl; [exact Hl|]. intros x Hx y Hy. by eapply Hf.
Qed.

(** X18.  The composite resources endpoint shows a user their own objects only:
    in front of a cluster whose [List] honours the selector, every
    deployment, pod, config map, service and ingress of an answered listing
    bears the user-id that Apps resolved for the [user] parameter, whatever
    else the query string asks for, a [user-id] of its own included. *)
Theorem resources_are_scoped_to_the_user (i : Incluster) (cl : Cluster)
    (updated : Object → option error) (c : Context_) (user userID : string)
    (code : Z) (listing : ResourceInfo) :
  clientset i = serve cl updated →
  QueryParam c "user" = user → user ≠ "" →
  apps.GetUserID (apps_ i) (fixUsername i user) = Ok userID →
  value (FilterableResourcesHandler i c) = Some (JSON code (BodyListing listing)) →
  Forall (λ d, UserID (DeploymentMeta d) = userID) (Deployments listing)
  ∧ Forall (λ p, UserID (PodMeta p) = userID) (Pods listing)
  ∧ Forall (λ cm, UserID (ConfigMapMeta cm) = userID) (ConfigMaps listing)
  ∧ Forall (λ svc, UserID (ServiceMeta svc) = userID) (Services listing)
  ∧ Forall (λ ing, UserID (IngressMeta ing) = userID) (Ingresses listing).
Proof.
  intros Hcl Huser Hne Happs.
  assert (Hq : bool_decide (QueryParam c "user" = "") = false).
  { apply bool_decide_eq_false_2. congruence. }
  unfold FilterableResourcesHandler. cbv zeta.
  rewrite Hq, Huser, bind_call, Happs.
  destruct (filterMap (Query c)) as [filter|]; [|done].
  rewrite bind_lift, value_bind.
  unfold doResourceListing.
  rewrite getFilteredDeployments_eq, getFilteredPods_eq, getFilteredConfigMaps_eq,
    getFilteredServices_eq, getFilteredIngresses_eq, Hcl.
  cbn [serve kubernetes.DeploymentsList kubernetes.PodsList kubernetes.ConfigMapsList
       kubernetes.ServicesList kubernetes.IngressesList].
  unfold listMatching. fold (ViceNamespace i).
  destruct (mapM deploymentInfo _) as [ds|] eqn:Hds; [|done].
  cbn [fmap option_fmap option_map]. rewrite !bind_pair.
  destruct (mapM ingressInfo _) as [ings|] eqn:Hings; [|done].
  cbn [fmap option_fmap option_map]. rewrite bind_pair.
  cbn [value ret snd]. intros [= _ <-]. cbn [Deployments Pods ConfigMaps
    Services Ingresses].
  split; [|split; [|split; [|split]]].
  - eapply mapM_Forall; [|exact Hds|apply matching_user_id].
    intros d info Hinfo Hd. cbn beta in Hd. unfold deploymentInfo in Hinfo.
    destruct (rangeContainers _ _); [|done]. cbn in Hinfo. by injection Hinfo as <-.
  - apply Forall_fmap. eapply Forall_impl; [apply matching_user_id|]. by intros p Hp.
  - apply Forall_fmap. eapply Forall_impl; [apply matching_user_id|]. by intros p Hp.
  - apply Forall_fmap. eapply Forall_impl; [apply matching_user_id|]. by intros p Hp.
  - eapply mapM_Forall; [|exact Hings|apply matching_user_id].
    intros g info Hinfo Hg. cbn beta in Hg. unfold ingressInfo in Hinfo.
    destruct (netv1.Ingress.DefaultBackend g) as [backend|]; [|done]. cbn in Hinfo.
    destruct (netv1.IngressBackend.Service backend); [|done]. cbn in Hinfo.
    by injection Hinfo as <-.
Qed.

End cluster_listing_theorems.

(** ** More on the reconciler *)

Section more_reconciler_theorems.
Context `{Env}.

Lemma populateSubdomain_grows (l : gmap string string) : l ⊆ populateSubdomain l.
Proof.
  unfold populateSubdomain. destruct (l !! "subdomain") eqn:Hs; [done|].
  destruct (l !! "external-id"); [|done]. destruct (l !! "user-id"); [|done].
  by apply insert_subseteq.
Qed.

Lemma populateLoginIP_spec (a : apps.Apps) (l : gmap string string) :
  ∃ t l' err, populateLoginIP a l = (t, Some (l', err))
    ∧ Forall isAppsCall t ∧ l ⊆ l'
    ∧ (∀ k, k ≠ "login-ip" → l' !! k = l !! k)
    ∧ (is_Some (l !! "login-ip") → t = [] ∧ l' = l)
    ∧ (∀ e, err = Some e
            ↔ l !! "login-ip" = None
              ∧ ∃ userID, l !! "user-id" = Some userID ∧ apps.GetUserIP a userID = Err e).
Proof.
  unfold populateLoginIP. destruct (l !! "login-ip") as [ip|] eqn:Hip.
  { eexists [], l, None. split; [reflexivity|]. split; [constructor|].
    split; [done|]. split; [done|]. split; [done|].
    intros e. split; [done | by intros [? _]]. }
  destruct (l !! "user-id") as [userID|] eqn:Hu.
  2:{ eexists [], l, None. split; [reflexivity|]. split; [constructor|].
      split; [done|]. split; [done|]. split; [done|].
      intros e. split; [done | by intros (_ & ? & ? & _)]. }
  rewrite bind_call. destruct (apps.GetUserIP a userID) as [ipAddr|e'] eqn:Hcall.
  - eexists _, _, _. split; [reflexivity|]. split; [by repeat constructor|].
    split; [by apply insert_subseteq|]. split; [by intros k Hk; rewrite lookup_insert_ne|].
    split; [by intros [? ?]|]. intros e. split; [done|].
    intros (_ & u & [= <-] & Hu'). congruence.
  - eexists _, _, _. split; [reflexivity|]. split; [by repeat constructor|].
    split; [done|]. split; [done|]. split; [by intros [? ?]|]. intros e. split.
    + intros [= <-]. split; [done|]. by exists userID.
    + intros (_ & u & [= <-] & Hu'). congruence.
Qed.

Lemma populateAnalysisID_spec (a : apps.Apps) (l : gmap string string) :
  ∃ t l' err, populateAnalysisID a l = (t, Some (l', err))
    ∧ Forall isAppsCall t ∧ l ⊆ l'
    ∧ (∀ k, k ≠ "analysis-id" → l' !! k = l !! k)
    ∧ (is_Some (l !! "analysis-id") → t = [] ∧ l' = l)
    ∧ (∀ e, err = Some e
            ↔ l !! "analysis-id" = None ∧ l !! "external-id" = None
              ∧ e = Errorf "missing external-id key").
Proof.
  unfold populateAnalysisID. destruct (l !! "analysis-id") as [id|] eqn:Hid.
  { eexists [], l, None. split; [reflexivity|]. split; [constructor|].
    split; [done|]. split; [done|]. split; [done|].
    intros e. split; [done | by intros [? _]]. }
  destruct (l !! "external-id") as [externalID|] eqn:He.
  2:{ eexists [], l, _. split; [reflexivity|]. split; [constructor|].
      split; [done|]. split; [done|]. split; [by intros [? ?]|].
      intros e. split; [by intros [= <-] | by intros (_ & _ & ->)]. }
  rewrite bind_call.
  destruct (apps.GetAnalysisIDByExternalID a externalID) as [analysisID|e'] eqn:Hcall.
  - eexists _, _, _. split; [reflexivity|]. split; [by repeat constructor|].
    split; [by apply insert_subseteq|]. split; [by intros k Hk; rewrite lookup_insert_ne|].
    split; [by intros [? ?]|]. intros e. split; [done | by intros (_ & ? & _)].
  - eexists _, _, _. split; [reflexivity|]. split; [by repeat constructor|].
    split; [done|]. split; [done|]. split; [by intros [? ?]|].
    intros e. split; [done | by intros (_ & ? & _)].
Qed.

Lemma relabel_spec (i : Incluster) (errors : list error) (l : gmap string string) :
  ∃ t l' new,
    relabel i errors l = (t, Some (l', errors ++ new))
    ∧ Forall isAppsCall t
    ∧ l ⊆ l'
    ∧ (∀ k, ¬ derivedLabel k → l' !! k = l !! k)
    ∧ (is_Some (l !! "subdomain") → is_Some (l !! "login-ip") →
       is_Some (l !! "analysis-id") → t = [] ∧ l' = l ∧ new = [])
    ∧ (∀ e, e ∈ new
            ↔ (l !! "login-ip" = None
               ∧ ∃ userID, l !! "user-id" = Some userID
                           ∧ apps.GetUserIP (apps_ i) userID = Err e)
              ∨ (l !! "analysis-id" = None ∧ l !! "external-id" = None
                 ∧ e = Errorf "missing external-id key")).
Proof.
  unfold relabel.
  destruct (populateLoginIP_spec (apps_ i) (populateSubdomain l))
    as (t1 & l1 & e1 & -> & Ht1 & Hsub1 & Hother1 & Hsame1 & Herr1).
  rewrite !bind_pair.
  destruct (populateAnalysisID_spec (apps_ i) l1)
    as (t2 & l2 & e2 & -> & Ht2 & Hsub2 & Hother2 & Hsame2 & Herr2).
  rewrite !bind_pair. cbn [ret]. rewrite app_nil_r.
  exists (t1 ++ t2), l2, (appendErr (appendErr [] e1) e2). split.
  { f_equal. f_equal. f_equal. destruct e1, e2; cbn; by rewrite <- ?app_assoc, ?app_nil_r. }
  split; [by apply Forall_app|]. split; [|split; [|split]].
  - etrans; [apply populateSubdomain_grows|]. by etrans.
  - intros k Hk. unfold derivedLabel in Hk.
    rewrite Hother2, Hother1, populateSubdomain_other; [done|tauto..].
  - intros Hs Hip Hid.
    assert (Hl0 : populateSubdomain l = l).
    { unfold populateSubdomain. by destruct Hs as [s ->]. }
    rewrite Hl0 in *. destruct (Hsame1 Hip) as [-> ->].
    destruct (Hsame2 Hid) as [-> ->]. split; [done|]. split; [done|].
    destruct e1 as [e|]; [by destruct (proj1 (Herr1 e) eq_refl) as [Hn _];
                          destruct Hip as [? Hip]; congruence|].
    destruct e2 as [e|]; [by destruct (proj1 (Herr2 e) eq_refl) as [Hn _];
                          destruct Hid as [? Hid]; congruence|].
    done.
  - rewrite !Hother1, !populateSubdomain_other in Herr2 by done.
    rewrite !populateSubdomain_other in Herr1 by done.
    intros e. rewrite <- Herr1, <- Herr2.
    destruct e1 as [x|], e2 as [y|]; cbn;
      rewrite ?elem_of_cons, ?elem_of_nil; intuition congruence.
Qed.

(** X19.  The body of the relabelling loops only adds labels: the labels it
    returns contain the labels of the object, differ from them at most at
    [subdomain], [login-ip] and [analysis-id], and are the labels of the
    object, obtained without a call to Apps and without an error, when the
    object bears the three already.  On the way it calls Apps only. *)
Theorem relabel_only_adds_derived_labels (i : Incluster) (errors : list error)
    (l : gmap string string) :
  ∃ t l' errors',
    relabel i errors l = (t, Some (l', errors'))
    ∧ Forall isAppsCall t
    ∧ l ⊆ l'
    ∧ (∀ k, ¬ derivedLabel k → l' !! k = l !! k)
    ∧ (is_Some (l !! "subdomain") → is_Some (l !! "login-ip") →
       is_Some (l !! "analysis-id") → t = [] ∧ l' = l ∧ errors' = errors).
Proof.
  destruct (relabel_spec i errors l) as (t & l' & new & -> & Ht & Hsub & Hother & Hsame & _).
  eexists _, _, _. split; [reflexivity|]. split; [done|]. split; [done|]. split; [done|].
  intros Hs Hip Hid. destruct (Hsame Hs Hip Hid) as (-> & -> & ->).
  by rewrite app_nil_r.
Qed.

(** X20.  What the body of the relabelling loops reports: to the errors collected
    so far it adds the error of Apps' [GetUserIP] when the object lacks
    [login-ip] and bears [user-id], and the error [missing external-id key]
    when the object lacks both [analysis-id] and [external-id], and nothing
    else; an error of Apps' [GetAnalysisIDByExternalID] is not reported. *)
Theorem relabel_collects_errors (i : Incluster) (errors : list error)
    (l : gmap string string) :
  ∃ l' new,
    value (relabel i errors l) = Some (l', errors ++ new)
    ∧ ∀ e, e ∈ new
           ↔ (l !! "login-ip" = None
              ∧ ∃ userID, l !! "user-id" = Some userID
                          ∧ apps.GetUserIP (apps_ i) userID = Err e)
             ∨ (l !! "analysis-id" = None ∧ l !! "external-id" = None
                ∧ e = Errorf "missing external-id key").
Proof.
  destruct (relabel_spec i errors l) as (t & l' & new & -> & _ & _ & _ & _ & Hnew).
  by exists l', new.
Qed.

(** A relabelling loop returns whatever the cluster and Apps answer: it
    calls Apps and updates objects, it lists nothing, and it only adds to
    the errors. *)
Lemma sweep_returns {A : Type} (labelsOf : A → gmap string string)
    (setLabels : A → gmap string string → A) (wrap : A → Object)
    (update : A → option error) (i : Incluster) (namespace : string)
    (body : list error → A → M (list error)) :
  (∀ errors x,
     body errors x
     = bind (relabel i errors (labelsOf x))
         (λ r, let '(l, errors) := r in
               bind (call (ClusterUpdate namespace (wrap (setLabels x l)))
                          (update (setLabels x l)))
                    (λ err, ret (appendErr errors err)))) →
  ∀ xs errors,
    ∃ t new, forRange xs body errors = (t, Some (errors ++ new))
             ∧ Forall (λ e, isAppsCall e ∨ isUpdate e) t.
Proof.
  intros Hbody xs. induction xs as [|x xs IH]; intros errors.
  - exists [], []. split; [|constructor]. cbn. by rewrite app_nil_r.
  - cbn [forRange]. rewrite Hbody.
    destruct (relabel_spec i errors (labelsOf x)) as (t & l' & new & -> & Ht & _).
    rewrite !bind_pair, bind_call. cbn [trace value ret fst snd]. rewrite bind_pair.
    destruct (IH (appendErr (errors ++ new) (update (setLabels x l'))))
      as (t' & new' & -> & Ht').
    cbn [trace value fst snd].
    exists (t ++ [ClusterUpdate namespace (wrap (setLabels x l'))] ++ t'),
      (appendErr new (update (setLabels x l')) ++ new').
    split.
    + f_equal; [by rewrite <- app_assoc|]. f_equal.
      destruct (update (setLabels x l')); cbn; by rewrite <- ?app_assoc.
    + apply Forall_app. split; [eapply Forall_impl; [exact Ht | by left]|].
      apply Forall_app. split; [|done]. constructor; [by right | constructor].
Qed.

Lemma relabelDeployments_lists (i : Incluster) :
  ∃ t errs,
    relabelDeployments i = (sweepCall i KDeployment :: t, Some errs)
    ∧ Forall (λ e, isAppsCall e ∨ isUpdate e) t
    ∧ (∀ err, listFails i KDeployment (getListOptions ∅ ["subdomain"]) err →
         t = [] ∧ errs = [err])
    ∧ (kubernetes.DeploymentsList (clientset i) (ViceNamespace i)
         (getListOptions ∅ ["subdomain"]) = Ok [] → t = [] ∧ errs = []).
Proof.
  unfold relabelDeployments, deploymentList, sweepCall, listFails. rewrite bind_call.
  destruct (kubernetes.DeploymentsList _ _ _) as [xs|e].
  - edestruct (sweep_returns (λ d, metav1.Labels (appsv1.Deployment.ObjectMeta d))
                 DeploymentSetLabels ODeployment
                 (λ d, kubernetes.DeploymentsUpdate (clientset i) (ViceNamespace i) d)
                 i (ViceNamespace i)) as (t & new & Heq & Ht); [intros; reflexivity|].
    rewrite Heq. eexists _, _. split; [reflexivity|]. split; [done|]. split; [done|].
    intros [= ->]. cbn in Heq. by injection Heq as <- <-.
  - eexists [], _. split; [reflexivity|]. split; [constructor|]. split; [|done].
    by intros err [= <-].
Qed.

Lemma relabelConfigMaps_lists (i : Incluster) :
  ∃ t errs,
    relabelConfigMaps i = (sweepCall i KConfigMap :: t, Some errs)
    ∧ Forall (λ e, isAppsCall e ∨ isUpdate e) t
    ∧ (∀ err, listFails i KConfigMap (getListOptions ∅ ["subdomain"]) err →
         t = [] ∧ errs = [err])
    ∧ (kubernetes.ConfigMapsList (clientset i) (ViceNamespace i)
         (getListOptions ∅ ["subdomain"]) = Ok [] → t = [] ∧ errs = []).
Proof.
  unfold relabelConfigMaps, configmapsList, sweepCall, listFails. rewrite bind_call.
  destruct (kubernetes.ConfigMapsList _ _ _) as [xs|e].
  - edestruct (sweep_returns (λ cm, metav1.Labels (corev1.ConfigMap.ObjectMeta cm))
                 ConfigMapSetLabels OConfigMap
                 (λ cm, kubernetes.ConfigMapsUpdate (clientset i) (ViceNamespace i) cm)
                 i (ViceNamespace i)) as (t & new & Heq & Ht); [intros; reflexivity|].
    rewrite Heq. eexists _, _. split; [reflexivity|]. split; [done|]. split; [done|].
    intros [= ->]. cbn in Heq. by injection Heq as <- <-.
  - eexists [], _. split; [reflexivity|]. split; [constructor|]. split; [|done].
    by intros err [= <-].
Qed.

Lemma relabelServices_lists (i : Incluster) :
  ∃ t errs,
    relabelServices i = (sweepCall i KService :: t, Some errs)
    ∧ Forall (λ e, isAppsCall e ∨ isUpdate e) t
    ∧ (∀ err, listFails i KService (getListOptions ∅ ["subdomain"]) err →
         t = [] ∧ errs = [err])
    ∧ (kubernetes.ServicesList (clientset i) (ViceNamespace i)
         (getListOptions ∅ ["subdomain"]) = Ok [] → t = [] ∧ errs = []).
Proof.
  unfold relabelServices, serviceList, sweepCall, listFails. rewrite bind_call.
  destruct (kubernetes.ServicesList _ _ _) as [xs|e].
  - edestruct (sweep_returns (λ svc, metav1.Labels (corev1.Service.ObjectMeta svc))
                 ServiceSetLabels OService
                 (λ svc, kubernetes.ServicesUpdate (clientset i) (ViceNamespace i) svc)
                 i (ViceNamespace i)) as (t & new & Heq & Ht); [intros; reflexivity|].
    rewrite Heq. eexists _, _. split; [reflexivity|]. split; [done|]. split; [done|].
    intros [= ->]. cbn in Heq. by injection Heq as <- <-.
  - eexists [], _. split; [reflexivity|]. split; [constructor|]. split; [|done].
    by intros err [= <-].
Qed.

Lemma relabelIngresses_lists (i : Incluster) :
  ∃ t errs,
    relabelIngresses i = (sweepCall i KIngress :: t, Some errs)
    ∧ Forall (λ e, isAppsCall e ∨ isUpdate e) t
    ∧ (∀ err, listFails i KIngress (getListOptions ∅ ["subdomain"]) err →
         t = [] ∧ errs = [err])
    ∧ (kubernetes.IngressesList (clientset i) (ViceNamespace i)
         (getListOptions ∅ ["subdomain"]) = Ok [] → t = [] ∧ errs = []).
Proof.
  unfold relabelIngresses, ingressList, sweepCall, listFails. rewrite bind_call.
  destruct (kubernetes.IngressesList _ _ _) as [xs|e].
  - edestruct (sweep_returns (λ ing, metav1.Labels (netv1.Ingress.ObjectMeta ing))
                 IngressSetLabels OIngress
                 (λ ing, kubernetes.IngressesUpdate (clientset i) (ViceNamespace i) ing)
                 i (ViceNamespace i)) as (t & new & Heq & Ht); [intros; reflexivity|].
    rewrite Heq. eexists _, _. split; [reflexivity|]. split; [done|]. split; [done|].
    intros [= ->]. cbn in Heq. by injection Heq as <- <-.
  - eexists [], _. split; [reflexivity|]. split; [constructor|]. split; [|done].
    by intros err [= <-].
Qed.

(** X21.  The sweep runs to its end whatever the cluster and Apps answer: it
    lists deployments, config maps, services and ingresses, in that order
    and with the selector of the sweep, a failure for one kind not keeping
    it from the next; between the listings it only calls Apps and updates
    objects; it never lists pods.  The error of a listing that fails is
    among the errors returned, and the handler then answers 500; the
    handler answers 200 without content exactly when no error was
    collected. *)
Theorem sweep_lists_the_four_kinds (i : Incluster) :
  ∃ t1 t2 t3 t4 errs,
    ApplyAsyncLabels i
    = (sweepCall i KDeployment :: t1 ++ sweepCall i KConfigMap :: t2
         ++ sweepCall i KService :: t3 ++ sweepCall i KIngress :: t4,
       Some errs)
    ∧ Forall (λ e, isAppsCall e ∨ isUpdate e) (t1 ++ t2 ++ t3 ++ t4)
    ∧ (∀ kind err, kind ≠ KPod →
         listFails i kind (getListOptions ∅ ["subdomain"]) err → err ∈ errs)
    ∧ trace (ApplyAsyncLabelsHandler i) = trace (ApplyAsyncLabels i)
    ∧ value (ApplyAsyncLabelsHandler i)
      = Some (match errs with
              | [] => NoContent 200
              | _ :: _ => StringReply 500 (errorLines errs)
              end).
Proof.
  destruct (relabelDeployments_lists i) as (t1 & errs1 & H1 & Ht1 & Hf1 & _).
  destruct (relabelConfigMaps_lists i) as (t2 & errs2 & H2 & Ht2 & Hf2 & _).
  destruct (relabelServices_lists i) as (t3 & errs3 & H3 & Ht3 & Hf3 & _).
  destruct (relabelIngresses_lists i) as (t4 & errs4 & H4 & Ht4 & Hf4 & _).
  assert (Hsweep : ApplyAsyncLabels i
    = (sweepCall i KDeployment :: t1 ++ sweepCall i KConfigMap :: t2
         ++ sweepCall i KService :: t3 ++ sweepCall i KIngress :: t4,
       Some (errs1 ++ errs2 ++ errs3 ++ errs4))).
  { unfold ApplyAsyncLabels. rewrite H1, bind_pair, H2, bind_pair, H3, bind_pair, H4, bind_pair.
    cbn [ret app]. by rewrite app_nil_r, <- !app_assoc. }
  exists t1, t2, t3, t4, (errs1 ++ errs2 ++ errs3 ++ errs4).
  split; [exact Hsweep|]. split; [by rewrite !Forall_app|]. split; [|split].
  - intros kind err Hkind Hfail. rewrite !elem_of_app. destruct kind; [|done|..].
    + destruct (Hf1 err Hfail) as [_ ->]. left. by left.
    + destruct (Hf2 err Hfail) as [_ ->]. right. left. by left.
    + destruct (Hf3 err Hfail) as [_ ->]. right. right. left. by left.
    + destruct (Hf4 err Hfail) as [_ ->]. right. right. right. by left.
  - unfold ApplyAsyncLabelsHandler. rewrite Hsweep, bind_pair.
    destruct (bool_decide _); cbn [trace ret fst]; by rewrite app_nil_r.
  - unfold ApplyAsyncLabelsHandler. rewrite Hsweep, bind_pair.
    destruct (errs1 ++ errs2 ++ errs3 ++ errs4) as [|e errs] eqn:Herrs; cbn [length].
    + rewrite bool_decide_eq_false_2 by lia. done.
    + rewrite bool_decide_eq_true_2 by lia. done.
Qed.

Lemma filter_none {A : Type} (P : A → Prop) `{∀ x, Decision (P x)} (l : list A) :
  Forall (λ x, ¬ P x) l → filter P l = [].
Proof.
  induction 1 as [|x l Hx Hl IH]; [done|]. by rewrite filter_cons_False.
Qed.

(** X22.  The steady state.  In front of a cluster whose [List] honours the
    selector and in which every deployment, config map, service and
    ingress of the namespace that is labelled [app-type=interactive] bears
    the label [subdomain], the sweep makes its four listings and nothing
    else, no call to Apps and no update, and the handler answers 200
    without content. *)
Theorem sweep_of_a_labelled_cluster (i : Incluster) (cl : Cluster)
    (updated : Object → option error) :
  clientset i = serve cl updated → validateLabelKey "subdomain" = true →
  Forall (λ d, ¬ swept i (appsv1.Deployment.ObjectMeta d)) (deployments cl) →
  Forall (λ cm, ¬ swept i (corev1.ConfigMap.ObjectMeta cm)) (configMaps cl) →
  Forall (λ svc, ¬ swept i (corev1.Service.ObjectMeta svc)) (services cl) →
  Forall (λ ing, ¬ swept i (netv1.Ingress.ObjectMeta ing)) (ingresses cl) →
  ApplyAsyncLabelsHandler i
  = ([sweepCall i KDeployment; sweepCall i KConfigMap; sweepCall i KService;
      sweepCall i KIngress],
     Some (NoContent 200)).
Proof.
  intros Hcl Hvalid Hd Hc Hs Hi.
  assert (Hnone : ∀ (A : Type) (meta : A → metav1.ObjectMeta) (items : list A),
            Forall (λ x, ¬ swept i (meta x)) items →
            listMatching meta items (ViceNamespace i) (getListOptions ∅ ["subdomain"])
            = Ok []).
  { intros A meta items Hitems. unfold listMatching. f_equal. apply filter_none.
    eapply Forall_impl; [exact Hitems|]. intros x Hx Hsel. by apply Hx, sweep_selects. }
  destruct (relabelDeployments_lists i) as (t1 & errs1 & H1 & _ & _ & He1).
  destruct (relabelConfigMaps_lists i) as (t2 & errs2 & H2 & _ & _ & He2).
  destruct (relabelServices_lists i) as (t3 & errs3 & H3 & _ & _ & He3).
  destruct (relabelIngresses_lists i) as (t4 & errs4 & H4 & _ & _ & He4).
  rewrite Hcl in He1, He2, He3, He4.
  destruct He1 as [-> ->]; [by apply Hnone|]. destruct He2 as [-> ->]; [by apply Hnone|].
  destruct He3 as [-> ->]; [by apply Hnone|]. destruct He4 as [-> ->]; [by apply Hnone|].
  unfold ApplyAsyncLabelsHandler, ApplyAsyncLabels.
  rewrite H1, bind_pair, H2, bind_pair, H3, bind_pair, H4, bind_pair. reflexivity.
Qed.

End more_reconciler_theorems.

(** ** More on the status publisher *)

Section more_publisher_theorems.
Context `{publisher.Net}.

(** X23.  [postStatus] returns nil exactly when the status URL parses, the
    status marshals, the request is built and the POST is answered: the
    request is a POST to the status URL with the path [jobID/status], its
    body is the marshalled host name, state and message, and it carries the
    header [content-type: application/json].  An error it returns wraps the
    error of the first of these four calls that failed. *)
Theorem postStatus_returns_nil_iff (j : publisher.JSLPublisher) (jobID msg : string)
    (jobState : publisher.JobState) :
  (publisher.postStatus j jobID msg jobState = None
   ↔ ∃ u js req response,
       publisher.url_Parse (publisher.statusURL j) = Ok u
       ∧ publisher.status_Marshal
           {| publisher.Hostname := publisher.hostname; publisher.State := jobState;
              publisher.Message := msg |} = Ok js
       ∧ publisher.NewRequestWithContext "POST"
           (publisher.URLString (publisher.withPath u (publisher.path_Join [jobID; "status"])))
           js = Ok req
       ∧ publisher.httpClient_Do (publisher.HeaderSet req "content-type" "application/json")
         = Ok response)
  ∧ ∀ err, publisher.postStatus j jobID msg jobState = Some err →
      ∃ msg' cause,
        err = Wrapped msg' cause
        ∧ (publisher.url_Parse (publisher.statusURL j) = Err cause
           ∨ ∃ u, publisher.url_Parse (publisher.statusURL j) = Ok u
               ∧ (publisher.status_Marshal
                    {| publisher.Hostname := publisher.hostname; publisher.State := jobState;
                       publisher.Message := msg |} = Err cause
                  ∨ ∃ js, publisher.status_Marshal
                            {| publisher.Hostname := publisher.hostname;
                               publisher.State := jobState;
                               publisher.Message := msg |} = Ok js
                      ∧ (publisher.NewRequestWithContext "POST"
                           (publisher.URLString
                              (publisher.withPath u (publisher.path_Join [jobID; "status"])))
                           js = Err cause
                         ∨ ∃ req, publisher.NewRequestWithContext "POST"
                                    (publisher.URLString
                                       (publisher.withPath u
                                          (publisher.path_Join [jobID; "status"])))
                                    js = Ok req
                             ∧ publisher.httpClient_Do
                                 (publisher.HeaderSet req "content-type" "application/json")
                               = Err cause))).
Proof.
  unfold publisher.postStatus.
  destruct (publisher.url_Parse (publisher.statusURL j)) as [u|e1].
  2:{ cbn [publisher.errOf errors.Wrapf]. split.
      - split; [done | by intros (? & ? & ? & ? & ? & _)].
      - intros err [= <-]. eexists _, _. split; [reflexivity | by left]. }
  cbv zeta.
  destruct (publisher.status_Marshal _) as [js|e2].
  2:{ cbn [publisher.errOf errors.Wrapf]. split.
      - split; [done | by intros (? & ? & ? & ? & _ & ? & _)].
      - intros err [= <-]. eexists _, _. split; [reflexivity|]. right. exists u.
        split; [done | by left]. }
  destruct (publisher.NewRequestWithContext _ _ _) as [req|e3] eqn:Hreq.
  2:{ cbn [publisher.errOf errors.Wrapf]. split.
      - split; [done|]. intros (? & ? & ? & ? & [= <-] & [= <-] & Hreq' & _). congruence.
      - intros err [= <-]. eexists _, _. split; [reflexivity|]. right. exists u.
        split; [done|]. right. exists js. split; [done | by left]. }
  destruct (publisher.httpClient_Do _) as [response|e4] eqn:Hdo.
  2:{ cbn [publisher.errOf errors.Wrapf]. split.
      - split; [done|]. intros (? & ? & ? & ? & [= <-] & [= <-] & Hreq' & Hdo').
        rewrite Hreq in Hreq'. injection Hreq' as <-. congruence.
      - intros err [= <-]. eexists _, _. split; [reflexivity|]. right. exists u.
        split; [done|]. right. exists js. split; [done|]. right. by exists req. }
  cbn [publisher.errOf errors.Wrapf]. split.
  - split; [|by destruct (_ || _)]. intros _. by exists u, js, req, response.
  - intros err. by destruct (_ || _).
Qed.

End more_publisher_theorems.

(** ** The query string and the endpoints by kind *)

Section filter_theorems.
Context `{Env}.

(** X24.  The filter of a listing has the keys of the query string, each with
    the value that [c.QueryParam] reads for it: the first value of a
    parameter given more than once. *)
Theorem filterMap_agrees_with_QueryParam (c : Context_) (filter : gmap string string) :
  filterMap (Query c) = Some filter →
  ∀ k, (is_Some (filter !! k) ↔ is_Some (Query c !! k))
       ∧ index filter k = QueryParam c k.
Proof.
  unfold filterMap, QueryParam, index. case_bool_decide as Hall; [|done].
  intros [= <-] k. rewrite lookup_fmap.
  destruct (Query c !! k) as [[|v vs]|] eqn:Hk; cbn.
  - split; [|done]. split; by eexists.
  - split; [|done]. split; by eexists.
  - split; [|done]. split; by intros [? ?].
Qed.

(** X25.  The five endpoints by kind agree with the composite admin endpoint:
    when the latter answers a request with a listing, each of the former
    answers the same request with 200 and the part of that listing for its
    kind. *)
Theorem endpoints_by_kind_agree_with_the_composite (i : Incluster) (c : Context_)
    (code : Z) (listing : ResourceInfo) :
  value (AdminFilterableResourcesHandler i c) = Some (JSON code (BodyListing listing)) →
  value (FilterableDeploymentsHandler i c)
  = Some (JSON 200 (BodyDeployments (Deployments listing)))
  ∧ value (FilterablePodsHandler i c) = Some (JSON 200 (BodyPods (Pods listing)))
  ∧ value (FilterableConfigMapsHandler i c)
    = Some (JSON 200 (BodyConfigMaps (ConfigMaps listing)))
  ∧ value (FilterableServicesHandler i c)
    = Some (JSON 200 (BodyServices (Services listing)))
  ∧ value (FilterableIngressesHandler i c)
    = Some (JSON 200 (BodyIngresses (Ingresses listing))).
Proof.
  unfold AdminFilterableResourcesHandler, FilterableDeploymentsHandler, FilterablePodsHandler,
    FilterableConfigMapsHandler, FilterableServicesHandler, FilterableIngressesHandler.
  destruct (filterMap (Query c)) as [filter|]; [|done].
  rewrite !bind_lift, !value_bind. unfold doResourceListing.
  rewrite getFilteredDeployments_eq, getFilteredPods_eq, getFilteredConfigMaps_eq,
    getFilteredServices_eq, getFilteredIngresses_eq.
  destruct (kubernetes.DeploymentsList _ _ _) as [depList|e1];
    [|by rewrite bind_pair].
  destruct (mapM deploymentInfo depList) as [ds|]; cbn [fmap option_fmap option_map];
    [|done].
  rewrite bind_pair.
  destruct (kubernetes.PodsList _ _ _) as [podList|e2]; [|by rewrite bind_pair].
  rewrite bind_pair.
  destruct (kubernetes.ConfigMapsList _ _ _) as [cmList|e3]; [|by rewrite bind_pair].
  rewrite bind_pair.
  destruct (kubernetes.ServicesList _ _ _) as [svcList|e4]; [|by rewrite bind_pair].
  rewrite bind_pair.
  destruct (kubernetes.IngressesList _ _ _) as [ingList|e5]; [|by rewrite bind_pair].
  destruct (mapM ingressInfo ingList) as [ings|]; cbn [fmap option_fmap option_map];
    [|done].
  rewrite bind_pair. cbn [value ret snd]. intros [= _ <-]. done.
Qed.

End filter_theorems.

(** * Part III: the theorems at the fixtures *)

Section fixtures.
Import Fixtures.

(** C10, at a job whose second input has an unknown type and no path. *)
Lemma empty_path_input_is_skipped_witness :
  model.IRODSPath (input "bogus" "") = ""
  ∧ getInputPathMappings world
      (job [step 1000 1000
              [input "fileinput" "/zone/in.txt"; input "bogus" "";
               input "folderinput" "/zone/data"]])
    = getInputPathMappings world
        (job [step 1000 1000
                [input "fileinput" "/zone/in.txt"; input "folderinput" "/zone/data"]]).
Proof.
  split; [reflexivity|].
  apply (empty_path_input_is_skipped world
           (job [step 1000 1000
                   [input "fileinput" "/zone/in.txt"; input "bogus" "";
                    input "folderinput" "/zone/data"]])
           [] []
           (step 1000 1000
              [input "fileinput" "/zone/in.txt"; input "bogus" "";
               input "folderinput" "/zone/data"])
           [input "fileinput" "/zone/in.txt"] [input "folderinput" "/zone/data"]
           (input "bogus" "")); reflexivity.
Defined.






(** C8, at alice's job. *)
Lemma service_ports_and_selector_witness :
  ∃ svc,
    getService world (jobOf []) = Ok svc
    ∧ corev1.ServicePort.Name <$> corev1.ServiceSpec.Ports (corev1.Service.Spec svc)
      = ["file-transfers"; "vice-proxy"]
    ∧ (∀ p, p ∈ corev1.ServiceSpec.Ports (corev1.Service.Spec svc) →
         intstr.Type_ (corev1.ServicePort.TargetPort p) = intstr.String_
         ∧ intstr.StrVal (corev1.ServicePort.TargetPort p) = corev1.ServicePort.Name p)
    ∧ corev1.ServiceSpec.Selector (corev1.Service.Spec svc)
      = {[ "external-id" := "abc123" ]}.
Proof.
  eexists. split; [reflexivity|].
  apply (service_ports_and_selector world (jobOf [])). reflexivity.
Defined.

(** C2.  The listener answers the POST with the status 500, outside
    200..399, and [Fail], [Success] and [Running] all return nil. *)
Theorem status_code_500_is_not_an_error :
  (∀ req, @publisher.httpClient_Do (net 500) req
          = Ok {| publisher.StatusCode := 500; publisher.BodyText := "" |})
  ∧ ¬ (200 ≤ 500 < 400)%Z
  ∧ @publisher.Fail (net 500) jsl "abc123" "analysis failed" = None
  ∧ @publisher.Success (net 500) jsl "abc123" "analysis finished" = None
  ∧ @publisher.Running (net 500) jsl "abc123" "analysis running" = None.
Proof. repeat split; try reflexivity. lia. Qed.

(** C9, at a request without query parameters. *)
Lemma user_parameter_required_witness :
  Query (request ∅) !! "user" = None
  ∧ DescribeAnalysisHandler world (request ∅)
    = ([], Some (Failed (HTTPError 400 "user query parameter must be set")))
  ∧ FilterableResourcesHandler world (request ∅)
    = ([], Some (Failed (HTTPError 400 "user query parameter must be set"))).
Proof.
  split; [reflexivity|].
  apply (user_parameter_required world (request ∅)). left. reflexivity.
Defined.

(** C3: the listing of the deployments, asked with the [user] parameter
    of a user that Apps does not know, calls the cluster only, with a
    selector that requires the label [user], and answers 200. *)
Lemma deployments_listing_keeps_user :
  apps.GetUserID (apps_ world) (fixUsername world "ghost") = Err ErrNoRows
  ∧ ∃ opts,
      FilterableDeploymentsHandler world (request {[ "user" := ["ghost"] ]})
      = ([ClusterList KDeployment "vice-apps" opts],
         Some (JSON 200 (BodyDeployments [])))
      ∧ {| labels.key := "user"; labels.operator := labels.Equals;
           labels.strValues := ["ghost"] |} ∈ metav1.LabelSelector opts.
Proof.
  split; [reflexivity|]. eexists. split; [vm_compute; reflexivity|].
  cbn [metav1.LabelSelector]. by repeat constructor.
Qed.

(** C3, in the form that holds of the code, at a request of alice for her
    jupyter analyses. *)
Lemma user_filter_of_the_listings_witness :
  QueryParam (request {[ "user" := ["alice"]; "app-name" := ["jupyter"] ]}) "user" = "alice"
  ∧ filterMap {[ "user" := ["alice"]; "app-name" := ["jupyter"] ]}
    = Some {[ "user" := "alice"; "app-name" := "jupyter" ]}
  ∧ apps.GetUserID (apps_ world) (fixUsername world "alice") = Ok "alice-id"
  ∧ ∃ opts,
      opts = getListOptions
               (<["user-id" := "alice-id"]>
                  (delete "user" {[ "user" := "alice"; "app-name" := "jupyter" ]})) []
      ∧ trace (FilterableResourcesHandler world
                 (request {[ "user" := ["alice"]; "app-name" := ["jupyter"] ]}))
        = AppsGetUserID (fixUsername world "alice")
          :: trace (doResourceListing world
                      (<["user-id" := "alice-id"]>
                         (delete "user" {[ "user" := "alice"; "app-name" := "jupyter" ]})))
      ∧ Forall (λ e, ∃ kind, e = ClusterList kind (ViceNamespace world) opts)
          (trace (doResourceListing world
                    (<["user-id" := "alice-id"]>
                       (delete "user" {[ "user" := "alice"; "app-name" := "jupyter" ]}))))
      ∧ (∀ r, r ∈ metav1.LabelSelector opts → labels.key r ≠ "user")
      ∧ {| labels.key := "user-id"; labels.operator := labels.Equals;
           labels.strValues := ["alice-id"] |} ∈ metav1.LabelSelector opts.
Proof.
  split; [reflexivity|]. split; [vm_compute; reflexivity|]. split; [reflexivity|].
  destruct (user_filter_of_the_listings world
              (request {[ "user" := ["alice"]; "app-name" := ["jupyter"] ]})
              "alice" {[ "user" := "alice"; "app-name" := "jupyter" ]})
    as (_ & Hknown & _).
  - reflexivity.
  - discriminate.
  - vm_compute. reflexivity.
  - apply Hknown. reflexivity.
Defined.

(** C4: bob asks the composite resources endpoint for his analysis;
    Permissions would deny him the analysis, yet the endpoint answers 200
    with the deployment and has not called Permissions. *)
Lemma resources_listing_asks_no_permission :
  ∃ listing deployment rest,
    value (FilterableResourcesHandler bobWorld bobRequest)
    = Some (JSON 200 (BodyListing listing))
    ∧ Deployments listing = deployment :: rest
    ∧ apps.GetAnalysisIDByExternalID (apps_ bobWorld) (ExternalID (DeploymentMeta deployment))
      = Ok "analysis-1"
    ∧ IsAllowed (PermissionsURL bobWorld) "bob" "analysis-1" = Ok false
    ∧ IsAllowed (PermissionsURL bobWorld) (fixUsername bobWorld "bob") "analysis-1" = Ok false
    ∧ Forall (λ e, ¬ isPermissionsCall e)
        (trace (FilterableResourcesHandler bobWorld bobRequest)).
Proof.
  eexists _, _, _. split; [vm_compute; reflexivity|]. split; [reflexivity|].
  split; [reflexivity|]. split; [reflexivity|]. split; [reflexivity|].
  apply FilterableResourcesHandler_no_permissions.
Qed.

(** C4, in the form that holds of the code, at bob's request for the
    description of his analysis: Permissions is asked and its denial is
    answered 403. *)
Lemma permission_gate_of_the_description_witness :
  ∃ calls listing deployment rest,
    doResourceListing bobWorld {[ "subdomain" := Param bobRequest "host" ]}
    = (calls, Some (Ok listing))
    ∧ Deployments listing = deployment :: rest
    ∧ DescribeAnalysisHandler bobWorld bobRequest
      = (AppsGetUserID (fixUsername bobWorld "bob")
           :: calls
           ++ [AppsGetAnalysisIDByExternalID (ExternalID (DeploymentMeta deployment));
               PermissionsIsAllowed (PermissionsURL bobWorld) "bob" "analysis-1"],
         Some (Failed (HTTPError 403
                 (fmt.Sprintf "user %s cannot access analysis %s"
                    [fmt.S "bob"; fmt.S "analysis-1"])))).
Proof.
  eexists _, _, _, _. split; [vm_compute; reflexivity|]. split; [reflexivity|].
  edestruct (permission_gate_of_the_description bobWorld bobRequest "bob" "bob-id")
    as (_ & Hsome & _).
  - reflexivity.
  - discriminate.
  - reflexivity.
  - vm_compute. reflexivity.
  - apply (Hsome _ [] "analysis-1" false); reflexivity.
Defined.



(** ** Further theorems at the fixtures *)


Lemma input_mappings_have_distinct_mount_paths_witness :
  getInputPathMappings world
    (jobOf [input "fileinput" "/zone/in.txt"; input "folderinput" "/zone/data"])
  = Ok [inputMapping (input "fileinput" "/zone/in.txt");
        inputMapping (input "folderinput" "/zone/data")]
  ∧ NoDup (MappingPath
             <$> [inputMapping (input "fileinput" "/zone/in.txt");
                  inputMapping (input "folderinput" "/zone/data")]).
Proof.
  split; [vm_compute; reflexivity|].
  apply (input_mappings_have_distinct_mount_paths world
           (jobOf [input "fileinput" "/zone/in.txt"; input "folderinput" "/zone/data"])).
  vm_compute. reflexivity.
Defined.

(** The output mapping in the manifest of a job with one input. *)
Lemma manifest_access_witness :
  getInputPathMappings world (jobOf [input "fileinput" "/zone/in.txt"])
  = Ok [inputMapping (input "fileinput" "/zone/in.txt")]
  ∧ getOutputPathMapping world (jobOf [input "fileinput" "/zone/in.txt"])
    ∈ dataPathMappings world (jobOf [input "fileinput" "/zone/in.txt"])
        [inputMapping (input "fileinput" "/zone/in.txt")]
  ∧ (ReadOnly (getOutputPathMapping world (jobOf [input "fileinput" "/zone/in.txt"])) = true
     ↔ getOutputPathMapping world (jobOf [input "fileinput" "/zone/in.txt"])
       ∈ [inputMapping (input "fileinput" "/zone/in.txt")])
  ∧ (CreateDir (getOutputPathMapping world (jobOf [input "fileinput" "/zone/in.txt"])) = true
     ↔ getOutputPathMapping world (jobOf [input "fileinput" "/zone/in.txt"])
       = getOutputPathMapping world (jobOf [input "fileinput" "/zone/in.txt"])).
Proof.
  assert (Hin : getOutputPathMapping world (jobOf [input "fileinput" "/zone/in.txt"])
                ∈ dataPathMappings world (jobOf [input "fileinput" "/zone/in.txt"])
                    [inputMapping (input "fileinput" "/zone/in.txt")]).
  { vm_compute. apply list_elem_of_further, list_elem_of_here. }
  split; [vm_compute; reflexivity|]. split; [exact Hin|].
  apply (manifest_access world (jobOf [input "fileinput" "/zone/in.txt"])
           [inputMapping (input "fileinput" "/zone/in.txt")]); [|exact Hin].
  vm_compute. reflexivity.
Defined.

(** A job without steps. *)
Lemma persistent_volume_needs_a_step_witness :
  UseCSIDriver world = true
  ∧ model.Steps (job []) = []
  ∧ (∃ json, json_Marshal (dataPathMappings world (job []) []) = Ok json)
  ∧ (∃ labels, LabelsFromJob world (job []) = Ok labels)
  ∧ getPersistentVolumes world (job []) = None.
Proof.
  split; [reflexivity|]. split; [reflexivity|].
  split; [eexists; reflexivity|]. split; [eexists; reflexivity|].
  eapply (persistent_volume_needs_a_step world (job [])); reflexivity.
Defined.

(** A job whose input has an unknown type. *)
Lemma persistent_volume_errors_witness :
  UseCSIDriver world = true
  ∧ getInputPathMappings world (jobOf [input "bogus" "/a/in.txt"])
    = Err (InvalidInputType "bogus")
  ∧ getPersistentVolumes world (jobOf [input "bogus" "/a/in.txt"])
    = Some (Err (InvalidInputType "bogus")).
Proof.
  split; [reflexivity|]. split; [reflexivity|].
  destruct (persistent_volume_errors world (jobOf [input "bogus" "/a/in.txt"])
              (InvalidInputType "bogus")) as [Hinputs _]; [reflexivity|].
  apply Hinputs. reflexivity.
Defined.

(** The volume, claim, pod volume and mount of alice's job. *)
Lemma data_volume_is_bound_by_name_witness :
  UseCSIDriver world = true
  ∧ ∃ pvs claims volumes,
      getPersistentVolumes world (jobOf [input "fileinput" "/zone/in.txt"]) = Some (Ok pvs)
      ∧ getPersistentVolumeClaims world (jobOf [input "fileinput" "/zone/in.txt"])
        = Ok claims
      ∧ getPersistentVolumeSources world (jobOf [input "fileinput" "/zone/in.txt"])
        = Ok volumes
      ∧ ∃ pv claim volume mount,
          pvs = [pv] ∧ claims = [claim] ∧ volumes = [volume]
          ∧ getPersistentVolumeMounts world (jobOf [input "fileinput" "/zone/in.txt"])
            = [mount]
          ∧ corev1.PersistentVolumeClaimSpec.VolumeName
              (corev1.PersistentVolumeClaim.Spec claim)
            = metav1.Name (corev1.PersistentVolume.ObjectMeta pv)
          ∧ corev1.PersistentVolumeClaimSpec.StorageClassName
              (corev1.PersistentVolumeClaim.Spec claim)
            = Some (corev1.PersistentVolumeSpec.StorageClassName
                      (corev1.PersistentVolume.Spec pv))
          ∧ corev1.PersistentVolumeClaimSpec.AccessModes
              (corev1.PersistentVolumeClaim.Spec claim)
            = corev1.PersistentVolumeSpec.AccessModes (corev1.PersistentVolume.Spec pv)
          ∧ corev1.PersistentVolumeClaimSpec.Requests
              (corev1.PersistentVolumeClaim.Spec claim)
            = corev1.PersistentVolumeSpec.Capacity (corev1.PersistentVolume.Spec pv)
          ∧ corev1.Volume.PersistentVolumeClaim volume
            = Some {| corev1.PersistentVolumeClaimVolumeSource.ClaimName :=
                        metav1.Name (corev1.PersistentVolumeClaim.ObjectMeta claim) |}
          ∧ corev1.VolumeMount.Name mount = corev1.Volume.Name volume
          ∧ corev1.VolumeMount.MountPath mount = CSIDriverLocalMountPath.
Proof.
  split; [reflexivity|]. eexists _, _, _.
  split; [reflexivity|]. split; [reflexivity|]. split; [reflexivity|].
  eapply (data_volume_is_bound_by_name world (jobOf [input "fileinput" "/zone/in.txt"]));
    reflexivity.
Defined.

Lemma data_volume_labels_witness :
  ∃ pv claim,
    getPersistentVolumes world (jobOf [input "fileinput" "/zone/in.txt"]) = Some (Ok [pv])
    ∧ getPersistentVolumeClaims world (jobOf [input "fileinput" "/zone/in.txt"])
      = Ok [claim]
    ∧ LabelsFromJob world (jobOf [input "fileinput" "/zone/in.txt"])
      = Ok (metav1.Labels (corev1.PersistentVolumeClaim.ObjectMeta claim))
    ∧ metav1.Labels (corev1.PersistentVolume.ObjectMeta pv)
      = <["volume-name" := metav1.Name (corev1.PersistentVolume.ObjectMeta pv)]>
          (metav1.Labels (corev1.PersistentVolumeClaim.ObjectMeta claim)).
Proof.
  eexists _, _. split; [reflexivity|]. split; [reflexivity|].
  apply (data_volume_labels world (jobOf [input "fileinput" "/zone/in.txt"])); reflexivity.
Defined.

(** The listing of alice's deployment shows its analysis container. *)
Lemma deploymentInfo_reports_last_analysis_witness :
  ∃ info,
    deploymentInfo (deployment baseLabels) = Some info
    ∧ DeploymentMeta info = metaInfo (appsv1.Deployment.ObjectMeta (deployment baseLabels))
    ∧ lastAnalysis (appsv1.Deployment.Containers (deployment baseLabels)) = Some analysis
    ∧ Image info = "harbor.cyverse.org/vice/jupyter"
    ∧ Port info = 8888%Z ∧ User info = 1000%Z ∧ Group info = 1000%Z.
Proof.
  eexists. split; [reflexivity|].
  destruct (deploymentInfo_reports_last_analysis (deployment baseLabels) _ eq_refl)
    as [Hmeta _].
  split; [exact Hmeta|]. by repeat split.
Defined.

Lemma serviceInfo_of_getService_witness :
  ∃ svc,
    getService world (jobOf []) = Ok svc
    ∧ Ports (serviceInfo svc)
      = [ {| PortName := FileTransfersPortName; NodePort := 0; TargetPort := 0;
             TargetPortName := FileTransfersPortName;
             ServicePortNumber := FileTransfersPort; Protocol := "TCP" |};
          {| PortName := VICEProxyPortName; NodePort := 0; TargetPort := 0;
             TargetPortName := VICEProxyPortName;
             ServicePortNumber := VICEProxyServicePort; Protocol := "TCP" |} ]
    ∧ LabelsFromJob world (jobOf []) = Ok (metav1.Labels (corev1.Service.ObjectMeta svc))
    ∧ ServiceMeta (serviceInfo svc) = metaInfo (corev1.Service.ObjectMeta svc).
Proof.
  eexists. split; [reflexivity|].
  apply (serviceInfo_of_getService world (jobOf [])). reflexivity.
Defined.

(** A user that Apps does not know. *)
Lemma unresolved_user_stops_the_request_witness :
  QueryParam (request {[ "user" := ["ghost"] ]}) "user" = "ghost"
  ∧ apps.GetUserID (apps_ world) (fixUsername world "ghost") = Err ErrNoRows
  ∧ DescribeAnalysisHandler world (request {[ "user" := ["ghost"] ]})
    = ([AppsGetUserID (fixUsername world "ghost")],
       Some (Failed (if bool_decide (ErrNoRows = ErrNoRows)
                     then HTTPError 404
                            (fmt.Sprintf "user %s not found"
                               [fmt.S (fixUsername world "ghost")])
                     else ErrNoRows)))
  ∧ FilterableResourcesHandler world (request {[ "user" := ["ghost"] ]})
    = ([AppsGetUserID (fixUsername world "ghost")],
       Some (Failed (if bool_decide (ErrNoRows = ErrNoRows)
                     then HTTPError 404
                            (fmt.Sprintf "user %s not found"
                               [fmt.S (fixUsername world "ghost")])
                     else HTTPError 500 (Error ErrNoRows)))).
Proof.
  split; [reflexivity|]. split; [reflexivity|].
  apply (unresolved_user_stops_the_request world (request {[ "user" := ["ghost"] ]})
           "ghost" ErrNoRows); [reflexivity | discriminate | reflexivity].
Defined.


(** Bob's listing of his resources. *)
Lemma resources_are_scoped_to_the_user_witness :
  clientset bobWorld = serve (clusterWith bobLabels) (λ _, None)
  ∧ QueryParam bobRequest "user" = "bob"
  ∧ apps.GetUserID (apps_ bobWorld) (fixUsername bobWorld "bob") = Ok "bob-id"
  ∧ ∃ listing,
      value (FilterableResourcesHandler bobWorld bobRequest)
      = Some (JSON 200 (BodyListing listing))
      ∧ Deployments listing ≠ []
      ∧ Forall (λ d, UserID (DeploymentMeta d) = "bob-id") (Deployments listing)
      ∧ Forall (λ p, UserID (PodMeta p) = "bob-id") (Pods listing)
      ∧ Forall (λ cm, UserID (ConfigMapMeta cm) = "bob-id") (ConfigMaps listing)
      ∧ Forall (λ svc, UserID (ServiceMeta svc) = "bob-id") (Services listing)
      ∧ Forall (λ ing, UserID (IngressMeta ing) = "bob-id") (Ingresses listing).
Proof.
  split; [reflexivity|]. split; [reflexivity|]. split; [reflexivity|].
  eexists. split; [vm_compute; reflexivity|]. split; [discriminate|].
  apply (resources_are_scoped_to_the_user bobWorld (clusterWith bobLabels) (λ _, None)
           bobRequest "bob" "bob-id" 200).
  - reflexivity.
  - reflexivity.
  - discriminate.
  - reflexivity.
  - vm_compute. reflexivity.
Defined.

(** The sweep of the cluster that holds bob's labelled analysis. *)
Lemma sweep_of_a_labelled_cluster_witness :
  clientset bobWorld = serve (clusterWith bobLabels) (λ _, None)
  ∧ validateLabelKey "subdomain" = true
  ∧ bobLabels !! "subdomain" = Some "abob-id-abc123"
  ∧ ApplyAsyncLabelsHandler bobWorld
    = ([sweepCall bobWorld KDeployment; sweepCall bobWorld KConfigMap;
        sweepCall bobWorld KService; sweepCall bobWorld KIngress],
       Some (NoContent 200)).
Proof.
  split; [reflexivity|]. split; [reflexivity|]. split; [reflexivity|].
  apply (sweep_of_a_labelled_cluster bobWorld (clusterWith bobLabels) (λ _, None)).
  - reflexivity.
  - reflexivity.
  - constructor; [|constructor]. intros (_ & _ & Hsub). discriminate Hsub.
  - constructor.
  - constructor.
  - constructor.
Defined.

(** A query string that gives the parameter [user] twice. *)
Lemma filterMap_agrees_with_QueryParam_witness :
  filterMap (Query (request {[ "user" := ["alice"; "bob"] ]})) = Some {[ "user" := "alice" ]}
  ∧ (is_Some (({[ "user" := "alice" ]} : gmap string string) !! "user")
     ↔ is_Some (Query (request {[ "user" := ["alice"; "bob"] ]}) !! "user"))
  ∧ index {[ "user" := "alice" ]} "user"
    = QueryParam (request {[ "user" := ["alice"; "bob"] ]}) "user".
Proof.
  split; [vm_compute; reflexivity|].
  apply (filterMap_agrees_with_QueryParam (request {[ "user" := ["alice"; "bob"] ]})
           {[ "user" := "alice" ]}).
  vm_compute. reflexivity.
Defined.

(** The listings by kind of bob's objects. *)
Lemma endpoints_by_kind_agree_with_the_composite_witness :
  ∃ listing,
    value (AdminFilterableResourcesHandler bobWorld (request {[ "user-id" := ["bob-id"] ]}))
    = Some (JSON 200 (BodyListing listing))
    ∧ Deployments listing ≠ []
    ∧ value (FilterableDeploymentsHandler bobWorld (request {[ "user-id" := ["bob-id"] ]}))
      = Some (JSON 200 (BodyDeployments (Deployments listing)))
    ∧ value (FilterablePodsHandler bobWorld (request {[ "user-id" := ["bob-id"] ]}))
      = Some (JSON 200 (BodyPods (Pods listing)))
    ∧ value (FilterableConfigMapsHandler bobWorld (request {[ "user-id" := ["bob-id"] ]}))
      = Some (JSON 200 (BodyConfigMaps (ConfigMaps listing)))
    ∧ value (FilterableServicesHandler bobWorld (request {[ "user-id" := ["bob-id"] ]}))
      = Some (JSON 200 (BodyServices (Services listing)))
    ∧ value (FilterableIngressesHandler bobWorld (request {[ "user-id" := ["bob-id"] ]}))
      = Some (JSON 200 (BodyIngresses (Ingresses listing))).
Proof.
  eexists. split; [vm_compute; reflexivity|]. split; [discriminate|].
  apply (endpoints_by_kind_agree_with_the_composite bobWorld
           (request {[ "user-id" := ["bob-id"] ]}) 200).
  vm_compute. reflexivity.
Defined.

End fixtures.
